(** * stablefused example notebooks: a shallow embedding

    The repository's sources are two Jupyter notebooks, the text-to-image
    notebook and [examples/inpaint_diffusion.ipynb].  Both are straight-line
    Python scripts over external calls (the stablefused pipelines, torch,
    numpy, PIL, IPython).  The embedding has four layers:

    - [Py]: the Python builtins the cells use (list repetition, [zip] over
      an unpacked list, floor division, [math.ceil(n / 2)], indexing);
    - [Np] and [PIL]: the numpy array operations and the image conversions of
      the inpainting notebook's input preparation;
    - [Nb]: a monad for a notebook run: every external call is answered by
      an environment, may raise, and is recorded in a trace;
    - [TextToImage] and [Inpaint]: the cells of the two notebooks, in order.

    [PipelineSpec] models the pipeline call itself, whose code is not part of
    the sources, from the specification. *)

From Stdlib Require Import String Ascii DecimalString ZArith QArith Lia Bool Arith
  PeanoNat List.
Import ListNotations.
Local Open Scope string_scope.
Local Open Scope list_scope.
Local Open Scope nat_scope.
Set Warnings "-register-all".

(* ===================================================================== *)
(** ** Python builtins used by the cells *)
(* ===================================================================== *)

Module Py.

(** [[x] * n]: a list of [n] references to [x]. *)
Definition list_times {A} (x : A) (n : nat) : list A := repeat x n.

(** [len(xs)]. *)
Definition len {A} (xs : list A) : nat := length xs.

(** [n // 2] on non-negative ints. *)
Definition floordiv2 (n : nat) : nat := n / 2.

(** [math.ceil(n / 2)]: true division then ceiling.  [n / 2] is exact in
    binary floating point for every list length, so the result is the
    integer ceiling of the half. *)
Definition ceil_half (n : nat) : nat := (n + 1) / 2.

(** One round of [zip]: the next element of every argument, or [None] as
    soon as one argument is exhausted. *)
Fixpoint heads {A} (xss : list (list A)) : option (list A) :=
  match xss with
  | [] => Some []
  | [] :: _ => None
  | (x :: _) :: rest =>
      match heads rest with
      | Some hs => Some (x :: hs)
      | None => None
      end
  end.

Fixpoint zip_rounds {A} (fuel : nat) (xss : list (list A)) : list (list A) :=
  match fuel with
  | 0 => []
  | S fuel' =>
      match heads xss with
      | Some hs => hs :: zip_rounds fuel' (map (@tl A) xss)
      | None => []
      end
  end.

(** [zip] applied to the unpacked list [xss] (star-argument call): tuples
    of the i-th elements, until the shortest argument ends; [zip] with no
    argument is empty.  The first argument bounds the number of rounds. *)
Definition zip_star {A} (xss : list (list A)) : list (list A) :=
  match xss with
  | [] => []
  | xs :: _ => zip_rounds (length xs) xss
  end.

(** [enumerate(xs)]. *)
Definition enumerate {A} (xs : list A) : list (nat * A) :=
  combine (seq 0 (length xs)) xs.

End Py.

(* ===================================================================== *)
(** ** numpy arrays: a shape and row-major data *)
(* ===================================================================== *)

Module Np.

Record ndarray := mk_ndarray { shape : list nat; data : list Z }.

(** Number of elements of an array of shape [sh]. *)
Definition size_of (sh : list nat) : nat := fold_right Nat.mul 1 sh.

Definition well_formed (a : ndarray) : Prop :=
  length (data a) = size_of (shape a).

(** [np.expand_dims(a, axis=0)]. *)
Definition expand_dims0 (a : ndarray) : ndarray :=
  {| shape := 1 :: shape a; data := data a |}.

(** The [d] consecutive blocks of [k] elements of [l]. *)
Fixpoint chunks (k d : nat) (l : list Z) : list (list Z) :=
  match d with
  | 0 => []
  | S d' => firstn k l :: chunks k d' (skipn k l)
  end.

(** [a.repeat(n, axis=0)]: every sub-array along the first axis is repeated
    [n] times in place.  A 0-d array has no axis 0 (numpy raises). *)
Definition repeat0 (n : nat) (a : ndarray) : option ndarray :=
  match shape a with
  | [] => None
  | d :: rest =>
      Some {| shape := d * n :: rest;
              data := flat_map (fun blk => concat (repeat blk n))
                               (chunks (size_of rest) d (data a)) |}
  end.

(** [a.reshape] with the dimensions [sh]: same data, new shape; numpy
    raises when the sizes differ. *)
Definition reshape (sh : list nat) (a : ndarray) : option ndarray :=
  if size_of sh =? size_of (shape a)
  then Some {| shape := sh; data := data a |}
  else None.

(** [a[i]]: the i-th sub-array along the first axis. *)
Definition index0 (i : nat) (a : ndarray) : option ndarray :=
  match shape a with
  | [] => None
  | d :: rest =>
      if i <? d
      then Some {| shape := rest;
                   data := firstn (size_of rest)
                                  (skipn (i * size_of rest) (data a)) |}
      else None
  end.

(** [a.shape[0]], the batch length. *)
Definition leading (a : ndarray) : option nat := hd_error (shape a).

End Np.

(* ===================================================================== *)
(** ** PIL images *)
(* ===================================================================== *)

Module PIL.

(** An opened image: mode, size, and the band values of each pixel. *)
Record Image := mk_image {
  mode : string;
  width : nat;
  height : nat;
  getpixel : nat -> nat -> list Z   (* x, y *)
}.

(** Number of bands of a mode. *)
Definition bands (m : string) : nat :=
  if String.eqb m "RGB" then 3
  else if String.eqb m "RGBA" then 4
  else if String.eqb m "CMYK" then 4
  else if String.eqb m "LA" then 2
  else 1.

Section Convert.
(** PIL's colour conversion of one pixel, from a mode to a mode. *)
Variable convert_pixel : string -> string -> list Z -> list Z.

(** [im.convert(m)]: same size, mode [m]. *)
Definition convert (m : string) (im : Image) : Image :=
  {| mode := m;
     width := width im;
     height := height im;
     getpixel := fun x y => convert_pixel (mode im) m (getpixel im x y) |}.
End Convert.

(** [np.array(im)]: shape [(height, width)] for a single-band image and
    [(height, width, bands)] otherwise, rows first. *)
Definition pixel_bands (im : Image) (x y : nat) : list Z :=
  map (fun k => nth k (getpixel im x y) 0%Z) (seq 0 (bands (mode im))).

Definition np_array (im : Image) : Np.ndarray :=
  {| Np.shape :=
       if bands (mode im) =? 1 then [height im; width im]
       else [height im; width im; bands (mode im)];
     Np.data :=
       flat_map (fun y => flat_map (fun x => pixel_bands im x y)
                                   (seq 0 (width im)))
                (seq 0 (height im)) |}.

End PIL.

(* ===================================================================== *)
(** ** A notebook run: external calls, exceptions and the trace *)
(* ===================================================================== *)

Module Nb.

(** Python values that cross the boundary to the external libraries.  An
    image that [Image.open] returned is a [VImage], a numpy array a
    [VArray]; any other library object is a [VObj], whose behaviour is the
    environment's. *)
Inductive Value :=
| VNone
| VBool (b : bool)
| VInt (z : Z)
| VFloat (q : Q)
| VStr (s : string)
| VSeq (l : list Value)                 (* list or tuple *)
| VArray (a : Np.ndarray)
| VImage (im : PIL.Image)
| VObj (cls : string) (id : nat).       (* an opaque library object *)

(** A raised exception: its class and its message. *)
Record Exn := mk_exn { exn_class : string; exn_msg : string }.

(** What a run does that is visible outside the kernel. *)
Inductive Event :=
| EShell (cmd : string)
| EImport (names : list string)
| ECall (f : string) (args : list Value) (kwargs : list (string * Value))
| EDisplay (v : Value).

Definition Trace := list Event.

(** The world outside the notebook.  An external call is answered from the
    trace so far and the call itself: it returns a value or raises. *)
Record Env := mk_env {
  ext_call : Trace -> Event -> Exn + Value;
  (** [obj[i]] and [iter(obj)] of a library object: its own [__getitem__]
      and [__iter__], which return or raise as the library decides. *)
  obj_getitem : Trace -> Value -> nat -> Exn + Value;
  obj_iter : Trace -> Value -> Exn + list Value;
  convert_pixel : string -> string -> list Z -> list Z
}.

(** A computation of the kernel: it reads the environment, extends the
    trace, and returns a value or an exception. *)
Definition M (A : Type) : Type := Env -> Trace -> (Exn + A) * Trace.

Definition ret {A} (x : A) : M A := fun _ tr => (inr x, tr).

(** Sequencing of statements: an exception of the first statement ends the
    run; nothing after it is executed. *)
Definition bind {A B} (m : M A) (k : A -> M B) : M B :=
  fun env tr =>
    match m env tr with
    | (inl e, tr') => (inl e, tr')
    | (inr x, tr') => k x env tr'
    end.

Definition raise {A} (e : Exn) : M A := fun _ tr => (inl e, tr).

(** An external call: recorded, then answered by the environment. *)
Definition ext (ev : Event) : M Value :=
  fun env tr => (ext_call env tr ev, tr ++ [ev]).

Definition call (f : string) (args : list Value)
           (kwargs : list (string * Value)) : M Value :=
  ext (ECall f args kwargs).

(** [!cmd]: a shell escape; its exit status is not an exception. *)
Definition shell (cmd : string) : M unit :=
  fun _ tr => (inr tt, tr ++ [EShell cmd]).

Definition import_ (names : list string) : M Value := ext (EImport names).

(** [v.convert(m)]: a call into PIL, which loads the pixels of the opened
    file and may raise; when it returns, the result is the image in mode [m]
    under the environment's colour conversion.  Only an image has the
    method. *)
Definition convert_event (m : string) (v : Value) : Event :=
  ECall "convert" [v; VStr m] [].

Definition image_convert (m : string) (v : Value) : M PIL.Image :=
  match v with
  | VImage im =>
      fun env tr =>
        (match ext_call env tr (convert_event m v) with
         | inl e => inl e
         | inr _ => inr (PIL.convert (convert_pixel env) m im)
         end,
         tr ++ [convert_event m v])
  | _ => raise (mk_exn "AttributeError" "object has no attribute 'convert'")
  end.

(** The value of a cell's last expression is shown unless it is [None]. *)
Definition show (v : Value) : M unit :=
  match v with
  | VNone => ret tt
  | _ => fun _ tr => (inr tt, tr ++ [EDisplay v])
  end.

(** A numpy operation that raises when the model returns [None]. *)
Definition np_try (what : string) (r : option Np.ndarray) : M Np.ndarray :=
  match r with
  | Some a => ret a
  | None => raise (mk_exn "ValueError" what)
  end.

(** The sub-arrays of an array along its first axis. *)
Definition array_items (a : Np.ndarray) : list Value :=
  match Np.shape a with
  | [] => []
  | d :: rest =>
      map (fun i => VArray {| Np.shape := rest;
                              Np.data := firstn (Np.size_of rest)
                                           (skipn (i * Np.size_of rest)
                                                  (Np.data a)) |})
          (seq 0 d)
  end.

(** [v[i]]: by position in a list, an array or a string; by the object's
    own [__getitem__] for a library object; a [TypeError] for a value that
    has none. *)
Definition getitem (v : Value) (i : nat) : M Value :=
  match v with
  | VSeq l =>
      match nth_error l i with
      | Some x => ret x
      | None => raise (mk_exn "IndexError" "index out of range")
      end
  | VArray a =>
      match Np.index0 i a with
      | Some b => ret (VArray b)
      | None => raise (mk_exn "IndexError" "index out of bounds")
      end
  | VStr s =>
      match String.get i s with
      | Some c => ret (VStr (String c EmptyString))
      | None => raise (mk_exn "IndexError" "string index out of range")
      end
  | VObj _ _ =>
      fun env tr =>
        (match obj_getitem env tr v i with
         | inl e => inl e
         | inr x => inr x
         end, tr)
  | VNone | VBool _ | VInt _ | VFloat _ | VImage _ =>
      raise (mk_exn "TypeError" "object is not subscriptable")
  end.

(** [iter(v)], run to the end: the elements of a list, an array or a
    string; what the object's own [__iter__] yields for a library object; a
    [TypeError] for a value that has none. *)
Definition iter (v : Value) : M (list Value) :=
  match v with
  | VSeq l => ret l
  | VArray a =>
      match Np.shape a with
      | [] => raise (mk_exn "TypeError" "iteration over a 0-d array")
      | _ => ret (array_items a)
      end
  | VStr s =>
      ret (map (fun c => VStr (String c EmptyString)) (list_ascii_of_string s))
  | VObj _ _ =>
      fun env tr =>
        (match obj_iter env tr v with
         | inl e => inl e
         | inr l => inr l
         end, tr)
  | VNone | VBool _ | VInt _ | VFloat _ | VImage _ =>
      raise (mk_exn "TypeError" "object is not iterable")
  end.

(** A [for] loop that collects one result per element. *)
Fixpoint for_each {A B} (body : A -> M B) (xs : list A) : M (list B) :=
  match xs with
  | [] => ret []
  | x :: xs' =>
      bind (body x) (fun y =>
      bind (for_each body xs') (fun ys =>
      ret (y :: ys)))
  end.

(** [zip] over the unpacked value [v]: every argument is iterated. *)
Definition zip_star (v : Value) : M (list (list Value)) :=
  bind (iter v) (fun args =>
  bind (for_each iter args) (fun xss =>
  ret (Py.zip_star xss))).

Definition vstrs (l : list string) : Value := VSeq (map VStr l).
Definition vnat (n : nat) : Value := VInt (Z.of_nat n).

(** The run of a notebook in an environment, from the empty trace. *)
Definition run {A} (m : M A) (env : Env) : (Exn + A) * Trace := m env [].
Definition result {A} (m : M A) (env : Env) : Exn + A := fst (run m env).
Definition trace {A} (m : M A) (env : Env) : Trace := snd (run m env).

End Nb.

Declare Scope nb_scope.
Delimit Scope nb_scope with nb.
Notation "x <- m ;; k" := (Nb.bind m (fun x => k))
  (at level 61, m at next level, right associativity) : nb_scope.
Notation "m ;; k" := (Nb.bind m (fun _ => k))
  (at level 61, right associativity) : nb_scope.

Local Open Scope nb_scope.

(* ===================================================================== *)
(** ** The text-to-image notebook *)
(* ===================================================================== *)

Module TextToImage.
Import Nb.

(** The values bound in the parameter cells. *)
Record Params := mk_params {
  model_id : string;
  prompt : string;                 (* cell 6 *)
  negative_prompt : string;
  num_inference_steps : nat;
  seed : Z;
  prompts : list string            (* cell 10 rebinds [prompt] to a list *)
}.

(** The parameters as the notebook has them. *)
Definition shipped : Params :=
  {| model_id := "runwayml/stable-diffusion-v1-5";
     prompt := "Cyberpunk cityscape with towering skyscrapers, neon signs, and flying cars.";
     negative_prompt := "cartoon, unrealistic, blur, boring background, deformed, disfigured, low resolution, unattractive";
     num_inference_steps := 20;
     seed := 1337;
     prompts :=
       [ "Gothic painting of an ancient castle at night, with a full moon, gargoyles, and shadows";
         "A lion in galaxies, spirals, nebulae, stars, smoke, iridescent, intricate detail, octane render, 8k";
         "A close up image of an very beautiful woman, aesthetic, realistic, high quality";
         "Concept art for a post-apocalyptic world with ruins, overgrown vegetation, and a lone survivor" ] |}.

Definition cell2 : M unit := shell "pip install stablefused ipython".

Definition cell3 : M unit :=
  import_ ["numpy"] ;;
  import_ ["torch"] ;;
  import_ ["IPython.display.Video"; "IPython.display.display"] ;;
  import_ ["stablefused.TextToImageDiffusion"] ;;
  import_ ["stablefused.utils.image_grid"; "stablefused.utils.pil_to_video"] ;;
  ret tt.

(** [model = TextToImageDiffusion(model_id=model_id)] *)
Definition cell5 (p : Params) : M Value :=
  call "TextToImageDiffusion" [] [("model_id", VStr (model_id p))].

Definition cell6 (p : Params) : M unit :=
  call "torch.manual_seed" [VInt (seed p)] [] ;;
  r <- call "np.random.seed" [VInt (seed p)] [] ;;
  show r.

(** [model(prompt=prompt, num_inference_steps=num_inference_steps)[0]] *)
Definition cell8_kwargs (p : Params) : list (string * Value) :=
  [ ("prompt", VStr (prompt p));
    ("num_inference_steps", vnat (num_inference_steps p)) ].

Definition cell8 (p : Params) (model : Value) : M unit :=
  out <- call "__call__" [model] (cell8_kwargs p) ;;
  first <- getitem out 0 ;;
  show first.

Definition cell12 (model : Value) : M unit :=
  call "enable_attention_slicing" [model] [] ;;
  call "enable_slicing" [model] [] ;;
  r <- call "enable_tiling" [model] [] ;;
  show r.

(** The keyword arguments of the batched call of cell 14. *)
Definition cell14_kwargs (p : Params) : list (string * Value) :=
  [ ("prompt", vstrs (prompts p));
    ("negative_prompt",
      vstrs (Py.list_times (negative_prompt p) (Py.len (prompts p))));
    ("num_inference_steps", vnat (num_inference_steps p));
    ("guidance_scale", VFloat (10 # 1));
    ("return_latent_history", VBool true) ].

Definition cell14 (p : Params) (model : Value) : M Value :=
  call "__call__" [model] (cell14_kwargs p).

(** The grid layout of cell 16. *)
Definition grid_rows : nat := 2.
Definition grid_cols (p : Params) : nat := Py.floordiv2 (Py.len (prompts p)).

Definition cell16 (p : Params) (images : Value) : M (list Value) :=
  steps <- zip_star images ;;
  for_each
    (fun imgs =>
       call "image_grid" [VSeq imgs]
            [("rows", vnat grid_rows); ("cols", vnat (grid_cols p))])
    steps.

Definition path : string := "text_to_image_diffusion.mp4".

Definition cell17 (timestep_images : list Value) : M unit :=
  r <- call "pil_to_video" [VSeq timestep_images; VStr path]
            [("fps", VInt 5)] ;;
  show r.

Definition cell19 : M unit :=
  video <- call "Video" [VStr path] [("embed", VBool true)] ;;
  r <- call "display" [video] [] ;;
  show r.

(** The cells in notebook order. *)
Definition notebook (p : Params) : M unit :=
  cell2 ;;
  cell3 ;;
  model <- cell5 p ;;
  cell6 p ;;
  cell8 p model ;;
  cell12 model ;;
  images <- cell14 p model ;;
  timestep_images <- cell16 p images ;;
  cell17 timestep_images ;;
  cell19.

End TextToImage.

(* ===================================================================== *)
(** ** The inpainting notebook *)
(* ===================================================================== *)

Module Inpaint.
Import Nb.

Record Params := mk_params {
  model_id : string;
  prompt : list string;
  negative_prompt : string;
  seed : Z;
  image_filename : string;
  mask_filename : string
}.

Definition shipped : Params :=
  {| model_id := "runwayml/stable-diffusion-inpainting";
     prompt :=
       [ "Digital illustration of a mythical creature, high quality, realistic, 8k";
         "Digital illustration of mythical creatures, high quality, realistic, 8k";
         "Digital illustration of a dragon, high quality, realistic, 8k";
         "Digital illustration of a ferocious lion, high quality, realistic, 8k" ];
     negative_prompt := "cartoon, unrealistic, blur, boring background, deformed, disfigured, low resolution, unattractive";
     seed := 42;
     image_filename := "mechanical-robot-base-image.png";
     mask_filename := "mask.png" |}.

(** [num_images = len(prompt)] *)
Definition num_images (p : Params) : nat := Py.len (prompt p).

Definition cell2 : M unit := shell "pip install stablefused ipython".

Definition cell4 : M unit :=
  import_ ["numpy"] ;;
  import_ ["torch"] ;;
  import_ ["math"] ;;
  import_ ["IPython.display.Video"; "IPython.display.display"] ;;
  import_ ["PIL.Image"] ;;
  import_ ["stablefused.InpaintDiffusion"] ;;
  import_ ["stablefused.utils.image_grid"; "stablefused.utils.pil_to_video"] ;;
  ret tt.

(** [torch.float16] *)
Definition torch_float16 : Value := VObj "torch.dtype" 16.

Definition cell6 (p : Params) : M Value :=
  model <- call "InpaintDiffusion" []
                [("model_id", VStr (model_id p));
                 ("torch_dtype", torch_float16)] ;;
  call "enable_attention_slicing" [model] [] ;;
  call "enable_slicing" [model] [] ;;
  r <- call "enable_tiling" [model] [] ;;
  show r ;;
  ret model.

Definition cell8 (p : Params) : M unit :=
  call "torch.manual_seed" [VInt (seed p)] [] ;;
  r <- call "np.random.seed" [VInt (seed p)] [] ;;
  show r.

(** The batching of cell 10:
    [np.expand_dims(a, axis=0).repeat(num_images, axis=0)]. *)
Definition batch (n : nat) (a : Np.ndarray) : option Np.ndarray :=
  Np.repeat0 n (Np.expand_dims0 a).

(** [mask_image.reshape] to its own shape followed by [1]. *)
Definition add_channel (a : Np.ndarray) : option Np.ndarray :=
  Np.reshape (Np.shape a ++ [1]) a.

(** [start_image] of cell 10, from the opened image: the RGB array,
    batched. *)
Definition start_image_of (cp : string -> string -> list Z -> list Z)
           (n : nat) (original_image : PIL.Image) : option Np.ndarray :=
  batch n (PIL.np_array (PIL.convert cp "RGB" original_image)).

(** [mask_image] of cell 10, from the opened mask: the single-band array,
    batched, with a channel axis appended. *)
Definition mask_image_of (cp : string -> string -> list Z -> list Z)
           (n : nat) (mask : PIL.Image) : option Np.ndarray :=
  match batch n (PIL.np_array (PIL.convert cp "L" mask)) with
  | Some m => add_channel m
  | None => None
  end.

(** Cell 10: load the image and the mask, convert, batch, and show both
    files side by side.  Returns [start_image] and [mask_image]. *)
Definition cell10 (p : Params) : M (Np.ndarray * Np.ndarray) :=
  original_image <- call "Image.open" [VStr (image_filename p)] [] ;;
  mask <- call "Image.open" [VStr (mask_filename p)] [] ;;
  rgb <- image_convert "RGB" original_image ;;
  let start_image := PIL.np_array rgb in
  grey <- image_convert "L" mask ;;
  let mask_image := PIL.np_array grey in
  start_image <- np_try "repeat" (batch (num_images p) start_image) ;;
  mask_image <- np_try "repeat" (batch (num_images p) mask_image) ;;
  mask_image <- np_try "cannot reshape array" (add_channel mask_image) ;;
  call "print" [VStr "Original and mask image:"] [] ;;
  grid <- call "image_grid" [VSeq [original_image; mask]]
               [("rows", VInt 1); ("cols", VInt 2)] ;;
  show grid ;;
  ret (start_image, mask_image).

(** The keyword arguments of the call of cell 12. *)
Definition cell12_kwargs (p : Params) (start_image mask_image : Np.ndarray)
  : list (string * Value) :=
  [ ("prompt", vstrs (prompt p));
    ("negative_prompt",
      vstrs (Py.list_times (negative_prompt p) (num_images p)));
    ("image", VArray start_image);
    ("mask", VArray mask_image);
    ("num_inference_steps", VInt 20);
    ("start_step", VInt 5);
    ("image_height", VInt 512);
    ("image_width", VInt 512);
    ("guidance_scale", VFloat (10 # 1)) ].

Definition cell12 (p : Params) (model : Value)
           (start_image mask_image : Np.ndarray) : M Value :=
  call "__call__" [model] (cell12_kwargs p start_image mask_image).

(** The grid layout of cell 14. *)
Definition grid_rows : nat := 2.
Definition grid_cols (p : Params) : nat := Py.ceil_half (num_images p).

(** The f-string of cell 14: the 1-based index, a dot, a tab, the prompt. *)
Definition caption (i : nat) (s : string) : string :=
  NilEmpty.string_of_uint (Nat.to_uint (i + 1)) ++ "."
  ++ String (ascii_of_nat 9) EmptyString ++ s.

Definition cell14 (p : Params) (images : Value) : M unit :=
  for_each (fun ip => call "print" [VStr (caption (fst ip) (snd ip))] [])
           (Py.enumerate (prompt p)) ;;
  grid <- call "image_grid" [images]
               [("rows", vnat grid_rows); ("cols", vnat (grid_cols p))] ;;
  show grid.

Definition notebook (p : Params) : M unit :=
  cell2 ;;
  cell4 ;;
  model <- cell6 p ;;
  cell8 p ;;
  arrays <- cell10 p ;;
  images <- cell12 p model (fst arrays) (snd arrays) ;;
  cell14 p images.

End Inpaint.

(** The notebooks of the repository, each with its parameter cells. *)
Inductive Notebook :=
| TextToImageNb (p : TextToImage.Params)
| InpaintNb (p : Inpaint.Params).

Definition cells (nb : Notebook) : Nb.M unit :=
  match nb with
  | TextToImageNb p => TextToImage.notebook p
  | InpaintNb p => Inpaint.notebook p
  end.

(* ===================================================================== *)
(** ** Properties of traces *)
(* ===================================================================== *)

Module Flow.
Import Nb.

(** The steps of the flow the specification describes.  Receiving the
    result of a call is the binding of its value and leaves no event. *)
Inductive Step := Construct | SetParams | CallPipeline | PostProcess | Display.

Definition rank (s : Step) : nat :=
  match s with
  | Construct => 0
  | SetParams => 1
  | CallPipeline => 2
  | PostProcess => 3
  | Display => 4
  end.

Definition fn_in (names : list string) (ev : Event) : bool :=
  match ev with
  | ECall f _ _ => existsb (String.eqb f) names
  | _ => false
  end.

Definition is_construct : Event -> bool :=
  fn_in ["TextToImageDiffusion"; "InpaintDiffusion"].
Definition is_seed : Event -> bool :=
  fn_in ["torch.manual_seed"; "np.random.seed"].
Definition is_pipeline_call : Event -> bool := fn_in ["__call__"].
Definition is_postprocess : Event -> bool :=
  fn_in ["image_grid"; "pil_to_video"].
Definition is_display (ev : Event) : bool :=
  match ev with
  | EDisplay _ => true
  | _ => fn_in ["display"] ev
  end.

(** The step an event belongs to; installing, importing, loading files,
    printing and the memory switches of the model belong to none. *)
Definition step_of (ev : Event) : option Step :=
  if is_construct ev then Some Construct
  else if is_seed ev then Some SetParams
  else if is_pipeline_call ev then Some CallPipeline
  else if is_postprocess ev then Some PostProcess
  else if is_display ev then Some Display
  else None.

(** A monitor reads a trace event by event and rejects by [None]. *)
Record Monitor := mk_monitor {
  state : Type;
  init : state;
  next : state -> Event -> option state
}.

Fixpoint run_from (m : Monitor) (s : state m) (tr : Trace)
  : option (state m) :=
  match tr with
  | [] => Some s
  | ev :: tr' =>
      match next m s ev with
      | Some s' => run_from m s' tr'
      | None => None
      end
  end.

Definition accepts (m : Monitor) (tr : Trace) : bool :=
  match run_from m (init m) tr with
  | Some _ => true
  | None => false
  end.

(** The steps occur in the one fixed order: no event of an earlier step
    after an event of a later one. *)
Definition fixed_order : Monitor :=
  {| state := Step;
     init := Construct;
     next := fun s ev =>
       match step_of ev with
       | None => Some s
       | Some t => if rank s <=? rank t then Some t else None
       end |}.

(** The order from a pipeline call on, started afresh at every call: from
    a call up to the next one, no event of an earlier step (constructing,
    seeding) occurs, and no post-processing event occurs after a display
    event.  Events that belong to no step are not constrained, and before
    the first call nothing is required. *)
Definition order_per_call : Monitor :=
  {| state := option Step;
     init := None;
     next := fun s ev =>
       match step_of ev with
       | None => Some s
       | Some CallPipeline => Some (Some CallPipeline)
       | Some t =>
           match s with
           | None => Some None
           | Some u => if rank u <=? rank t then Some (Some t) else None
           end
       end |}.

(** Every event satisfying [q] comes after some event satisfying [p]. *)
Definition precedes (p q : Event -> bool) : Monitor :=
  {| state := bool;
     init := false;
     next := fun seen ev =>
       if q ev && negb seen then None else Some (seen || p ev) |}.

(** The flow of the specification on a trace: the steps in the one fixed
    order; in particular no pipeline call before the model is constructed
    and no display before post-processing. *)
Definition fixed_flow (tr : Trace) : Prop :=
  accepts fixed_order tr = true /\
  accepts (precedes is_construct is_pipeline_call) tr = true /\
  accepts (precedes is_postprocess is_display) tr = true.

(** Every event satisfies [ok]. *)
Definition always (ok : Event -> bool) : Monitor :=
  {| state := unit;
     init := tt;
     next := fun _ ev => if ok ev then Some tt else None |}.

(** *** Options of constructors and calls *)

Fixpoint lookup (k : string) (kwargs : list (string * Value)) : option Value :=
  match kwargs with
  | [] => None
  | (k', v) :: rest => if String.eqb k k' then Some v else lookup k rest
  end.

(** The options the specification lists for a pipeline call: prompt(s),
    negative prompt(s), inference step count, guidance scale, source
    image, mask image, starting step, target image dimensions, and the
    latent-history flag. *)
Definition recognized_options : list string :=
  [ "prompt"; "negative_prompt"; "num_inference_steps"; "guidance_scale";
    "image"; "mask"; "start_step"; "image_height"; "image_width";
    "return_latent_history" ].

Definition only_recognized (kwargs : list (string * Value)) : bool :=
  forallb (fun kv => existsb (String.eqb (fst kv)) recognized_options) kwargs.

Definition has_model_id (kwargs : list (string * Value)) : bool :=
  match lookup "model_id" kwargs with
  | Some (VStr _) => true
  | _ => false
  end.

(** A constructor is given a model identifier; a pipeline call is given
    recognized options only, and the pipeline as its only positional
    argument. *)
Definition interface_ok (ev : Event) : bool :=
  match ev with
  | ECall f args kwargs =>
      if is_construct ev then has_model_id kwargs
      else if is_pipeline_call ev
           then (length args =? 1) && only_recognized kwargs
           else true
  | _ => true
  end.

(** *** Batch lengths of a pipeline call *)

(** The option is given, and is a list of [n] elements or an array whose
    leading dimension is [n]. *)
Definition has_length (n : nat) (v : option Value) : bool :=
  match v with
  | Some (VSeq l) => length l =? n
  | Some (VArray a) =>
      match Np.leading a with
      | Some d => d =? n
      | None => false
      end
  | _ => false
  end.

(** The options of a pipeline call are batched to matching lengths.  With
    a list of prompts, the negative prompts are given and are as many as the
    prompts, and in the inpainting notebook so are the image batch and the
    mask batch.  A call with one prompt string is not batched; the
    inpainting notebook makes none.  A call without a prompt does not
    pass. *)
Definition batch_lengths_match (inpainting : bool)
           (kwargs : list (string * Value)) : bool :=
  match lookup "prompt" kwargs with
  | Some (VSeq ps) =>
      has_length (length ps) (lookup "negative_prompt" kwargs)
      && (if inpainting
          then has_length (length ps) (lookup "image" kwargs)
               && has_length (length ps) (lookup "mask" kwargs)
          else true)
  | Some (VStr _) => negb inpainting
  | _ => false
  end.

Definition batches_ok (inpainting : bool) (ev : Event) : bool :=
  match ev with
  | ECall f _ kwargs =>
      if is_pipeline_call ev then batch_lengths_match inpainting kwargs
      else true
  | _ => true
  end.

Definition is_inpainting (nb : Notebook) : bool :=
  match nb with
  | TextToImageNb _ => false
  | InpaintNb _ => true
  end.

(** *** Grids *)

(** A grid of [rows] by [cols] has a cell for each of [n] images. *)
Definition grid_fits (n rows cols : nat) : bool := n <=? rows * cols.

(** *** Failures *)

(** The answer of the environment to an event at a point of the trace; a
    shell escape and a display raise nothing. *)
Definition answer (env : Env) (tr : Trace) (ev : Event) : Exn + Value :=
  match ev with
  | EShell _ | EDisplay _ => inr VNone
  | EImport _ | ECall _ _ _ => ext_call env tr ev
  end.

(** A computation propagates failures: whenever the environment raises on
    one of its events, that event is its last and the exception is its
    result. *)
Definition propagates {A} (m : M A) : Prop :=
  forall env tr,
  exists evs,
    snd (m env tr) = tr ++ evs /\
    forall pre ev post e,
      evs = pre ++ ev :: post ->
      answer env (tr ++ pre) ev = inl e ->
      post = [] /\ fst (m env tr) = inl e.

(** A computation that leaves no event. *)
Definition silent {A} (m : M A) : Prop :=
  forall env tr, snd (m env tr) = tr.

(** *** Reasoning about a monitor along a computation *)

(** From a trace the monitor accepts in a state satisfying [P], the
    computation extends the trace to one the monitor accepts, whether it
    returns or raises, and a returned value satisfies [Q] with the state
    reached. *)
Definition triple (mon : Monitor) {A} (P : state mon -> Prop) (m : M A)
           (Q : A -> state mon -> Prop) : Prop :=
  forall env tr s,
    run_from mon (init mon) tr = Some s -> P s ->
    exists s',
      run_from mon (init mon) (snd (m env tr)) = Some s' /\
      forall x, fst (m env tr) = inr x -> Q x s'.

(** The states reached from the states [ss] by one event, if none of them
    rejects it. *)
Fixpoint step_all (mon : Monitor) (ss : list (state mon)) (ev : Event)
  : option (list (state mon)) :=
  match ss with
  | [] => Some []
  | s :: ss' =>
      match next mon s ev, step_all mon ss' ev with
      | Some s', Some rest => Some (s' :: rest)
      | _, _ => None
      end
  end.

Definition within {S A} (ss : list S) : A -> S -> Prop := fun _ s => In s ss.

(** *** What a run never does, and how often it does something *)

(** No event satisfies [p]. *)
Definition never (p : Event -> bool) : Monitor :=
  always (fun ev => negb (p ev)).

(** No more than [k] events satisfy [p]. *)
Definition at_most (k : nat) (p : Event -> bool) : Monitor :=
  {| state := nat;
     init := 0;
     next := fun c ev =>
       if p ev then (if c <? k then Some (S c) else None) else Some c |}.

(** The events [show] leaves for a value. *)
Definition displayed (v : Value) : Trace :=
  match v with
  | VNone => []
  | _ => [EDisplay v]
  end.

End Flow.

(* ===================================================================== *)
(** ** The pipeline call, from the specification *)
(* ===================================================================== *)

(** The pipelines ([TextToImageDiffusion], [InpaintDiffusion]) live in the
    stablefused package, whose code is not among the sources; the notebooks
    only call them.  What follows is the call as the specification describes
    it; the networks (sampling step, decoder) stay abstract. *)

Module PipelineSpec.
Section Pipeline.
Variables Prompt Picture Latent Image : Type.

(** Modelled from the spec: the configuration of a call (section 6):
    prompt(s), negative prompt(s), inference step count, guidance scale,
    source image, mask image, starting step, target image dimensions,
    and the latent-history flag, absent by default. *)
Record Request := mk_request {
  prompts : list Prompt;
  negative_prompts : option (list Prompt);
  images : option (list Picture);
  masks : option (list Picture);
  num_inference_steps : nat;
  start_step : nat;
  guidance_scale : Q;
  image_size : nat * nat;
  return_latent_history : bool
}.

(** Modelled from the spec: what the call uses for one prompt. *)
Record Sample := mk_sample {
  s_prompt : Prompt;
  s_negative : option Prompt;
  s_image : option Picture;
  s_mask : option Picture
}.

(** Modelled from the spec: the result for one prompt is the final image
    or, on request, the images of the per-step latent snapshots. *)
Inductive PerPrompt :=
| Final (im : Image)
| History (ims : list Image).

(** The sampler and the networks of the library: the latent snapshots it
    keeps along the denoising trajectory of a sample, the latent it ends
    with, and the decoder from latent to pixel space.  The specification
    says neither how many snapshots a call keeps nor how the inference step
    count and the starting step bound the trajectory, so nothing is fixed
    about them here. *)
Variable latent_history : Request -> Sample -> list Latent.
Variable final_latent : Request -> Sample -> Latent.
Variable decode : Latent -> Image.

(** The [i]-th element of an optional batch. *)
Definition nth_opt {A} (l : option (list A)) (i : nat) : option A :=
  match l with
  | Some xs => nth_error xs i
  | None => None
  end.

(** An optional batch, where given, has [n] elements. *)
Definition length_ok {A} (n : nat) (l : option (list A)) : bool :=
  match l with
  | Some xs => length xs =? n
  | None => true
  end.

(** Modelled from the spec: prompts and images are batched to matching
    lengths (section 3). *)
Definition batch_ok (r : Request) : bool :=
  length_ok (length (prompts r)) (negative_prompts r)
  && length_ok (length (prompts r)) (images r)
  && length_ok (length (prompts r)) (masks r).

(** Modelled from the spec: the [i]-th prompt goes with the [i]-th negative
    prompt, image and mask. *)
Definition sample_at (r : Request) (i : nat) (p : Prompt) : Sample :=
  {| s_prompt := p;
     s_negative := nth_opt (negative_prompts r) i;
     s_image := nth_opt (images r) i;
     s_mask := nth_opt (masks r) i |}.

(** Modelled from the spec: one sample per prompt, in the order of the
    prompts. *)
Definition samples (r : Request) : list Sample :=
  map (fun ip => sample_at r (fst ip) (snd ip)) (Py.enumerate (prompts r)).

(** Modelled from the spec: the flag requests the full latent-state
    history instead of only the final image. *)
Definition result_for (r : Request) (s : Sample) : PerPrompt :=
  if return_latent_history r
  then History (map decode (latent_history r s))
  else Final (decode (final_latent r s)).

(** Modelled from the spec: the pipeline call of the stablefused
    package ([__call__] of [TextToImageDiffusion] and [InpaintDiffusion],
    absent from the sources): one result per prompt, in the order of the
    prompts; batches of other lengths are a failure of the library. *)
Definition call (r : Request) : option (list PerPrompt) :=
  if batch_ok r then Some (map (result_for r) (samples r)) else None.

(** The images of a result, for the notebook's [zip] and [image_grid]. *)
Definition images_of (x : PerPrompt) : list Image :=
  match x with
  | Final im => [im]
  | History ims => ims
  end.

(** An output with exactly one image per prompt. *)
Definition one_image_per_prompt (r : Request) (out : list PerPrompt) : Prop :=
  length out = length (prompts r) /\
  Forall (fun x => length (images_of x) = 1) out.

End Pipeline.

Arguments mk_request {Prompt Picture}.
Arguments prompts {Prompt Picture}.
Arguments negative_prompts {Prompt Picture}.
Arguments images {Prompt Picture}.
Arguments masks {Prompt Picture}.
Arguments num_inference_steps {Prompt Picture}.
Arguments start_step {Prompt Picture}.
Arguments return_latent_history {Prompt Picture}.
Arguments s_prompt {Prompt Picture}.
Arguments s_negative {Prompt Picture}.
Arguments s_image {Prompt Picture}.
Arguments s_mask {Prompt Picture}.
Arguments Final {Image}.
Arguments History {Image}.
Arguments batch_ok {Prompt Picture}.
Arguments sample_at {Prompt Picture}.
Arguments samples {Prompt Picture}.
Arguments result_for {Prompt Picture Latent Image}.
Arguments call {Prompt Picture Latent Image}.
Arguments images_of {Image}.
Arguments one_image_per_prompt {Prompt Picture Image}.
End PipelineSpec.

(* ===================================================================== *)
(** ** Concrete environments *)
(* ===================================================================== *)

Module Examples.
Import Nb.

(** A 2x1 RGBA picture and a 1x1 greyscale mask. *)
Definition picture : PIL.Image :=
  {| PIL.mode := "RGBA"; PIL.width := 2; PIL.height := 1;
     PIL.getpixel := fun x y => [Z.of_nat x; Z.of_nat y; 7; 255]%Z |}.

Definition mask : PIL.Image :=
  {| PIL.mode := "L"; PIL.width := 1; PIL.height := 1;
     PIL.getpixel := fun _ _ => [255%Z] |}.

Definition generated (k : nat) : Value := VObj "PIL.Image" k.

(** A pipeline that answers one result per prompt: an image or, with the
    latent-history flag, the images of two steps. *)
Definition pipeline_answer (kwargs : list (string * Value)) : Value :=
  match Flow.lookup "prompt" kwargs with
  | Some (VSeq ps) =>
      match Flow.lookup "return_latent_history" kwargs with
      | Some (VBool true) =>
          VSeq (map (fun k => VSeq [generated k; generated (k + 100)])
                    (seq 0 (length ps)))
      | _ => VSeq (map generated (seq 0 (length ps)))
      end
  | _ => VSeq [generated 0]
  end.

Definition library (ev : Event) : Value :=
  match ev with
  | ECall f args kwargs =>
      if String.eqb f "TextToImageDiffusion" then VObj "model" 0
      else if String.eqb f "InpaintDiffusion" then VObj "model" 1
      else if String.eqb f "__call__" then pipeline_answer kwargs
      else if String.eqb f "image_grid" then VObj "grid" (length args)
      else if String.eqb f "Video" then VObj "Video" 0
      else if String.eqb f "Image.open" then
        match args with
        | [VStr name] =>
            if String.eqb name "mask.png" then VImage mask
            else VImage picture
        | _ => VNone
        end
      else VNone
  | _ => VNone
  end.

Definition to_mode (src dst : string) (px : list Z) : list Z :=
  if String.eqb dst "RGB" then firstn 3 (px ++ [0; 0; 0])%Z
  else firstn 1 (px ++ [0%Z]).

(** The library objects of these environments have no items. *)
Definition not_subscriptable : Exn :=
  mk_exn "TypeError" "object is not subscriptable".

Definition not_iterable : Exn := mk_exn "TypeError" "object is not iterable".

(** Every external call succeeds. *)
Definition env_ok : Env :=
  {| ext_call := fun _ ev => inr (library ev);
     obj_getitem := fun _ _ _ => inl not_subscriptable;
     obj_iter := fun _ _ => inl not_iterable;
     convert_pixel := to_mode |}.

Definition file_not_found : Exn :=
  mk_exn "FileNotFoundError" "No such file or directory: 'mask.png'".

(** The mask file is missing. *)
Definition env_no_mask : Env :=
  {| ext_call := fun _ ev =>
       match ev with
       | ECall f [VStr name] [] =>
           if String.eqb f "Image.open" && String.eqb name "mask.png"
           then inl file_not_found
           else inr (library ev)
       | _ => inr (library ev)
       end;
     obj_getitem := fun _ _ _ => inl not_subscriptable;
     obj_iter := fun _ _ => inl not_iterable;
     convert_pixel := to_mode |}.

Definition out_of_memory : Exn :=
  mk_exn "OutOfMemoryError" "CUDA out of memory".

(** The accelerator runs out of memory inside a pipeline call. *)
Definition env_oom : Env :=
  {| ext_call := fun _ ev =>
       if Flow.is_pipeline_call ev then inl out_of_memory
       else inr (library ev);
     obj_getitem := fun _ _ _ => inl not_subscriptable;
     obj_iter := fun _ _ => inl not_iterable;
     convert_pixel := to_mode |}.

(** A small instance of the pipeline of the specification: latents and
    images are numbers. *)
Definition toy_request (history : bool) : PipelineSpec.Request string nat :=
  PipelineSpec.mk_request
    ["a castle"; "a lion"] (Some ["blur"; "blur"]) None None
    3 1 (10 # 1) (512, 512) history.

Definition toy_history (r : PipelineSpec.Request string nat)
           (s : PipelineSpec.Sample string nat) : list nat :=
  [String.length (PipelineSpec.s_prompt s);
   String.length (PipelineSpec.s_prompt s) + 1].

Definition toy_final (r : PipelineSpec.Request string nat)
           (s : PipelineSpec.Sample string nat) : nat :=
  String.length (PipelineSpec.s_prompt s) + 1.

Definition toy_decode (z : nat) : nat := 2 * z.

(** The pipeline returns an empty list. *)
Definition env_empty_output : Env :=
  {| ext_call := fun _ ev =>
       if Flow.is_pipeline_call ev then inr (VSeq []) else inr (library ev);
     obj_getitem := fun _ _ _ => inl not_subscriptable;
     obj_iter := fun _ _ => inl not_iterable;
     convert_pixel := to_mode |}.

(** The text-to-image notebook with three prompts instead of four. *)
Definition three_prompts : TextToImage.Params :=
  {| TextToImage.model_id := TextToImage.model_id TextToImage.shipped;
     TextToImage.prompt := TextToImage.prompt TextToImage.shipped;
     TextToImage.negative_prompt :=
       TextToImage.negative_prompt TextToImage.shipped;
     TextToImage.num_inference_steps :=
       TextToImage.num_inference_steps TextToImage.shipped;
     TextToImage.seed := TextToImage.seed TextToImage.shipped;
     TextToImage.prompts := ["a castle"; "a lion"; "a ruin"] |}.

End Examples.

(* ===================================================================== *)
(** * Lemmas *)
(* ===================================================================== *)

(** ** Python builtins *)

Section PyFacts.
Context {A : Type}.

Lemma list_times_length (x : A) (n : nat) :
  length (Py.list_times x n) = n.
Proof. apply repeat_length. Qed.

Lemma enumerate_length (xs : list A) :
  length (Py.enumerate xs) = length xs.
Proof.
  unfold Py.enumerate. rewrite length_combine, length_seq. apply Nat.min_id.
Qed.

Lemma combine_seq_nth (xs : list A) :
  forall k i x,
    nth_error xs i = Some x ->
    nth_error (combine (seq k (length xs)) xs) i = Some (k + i, x).
Proof.
  induction xs as [|y ys IH]; intros k [|i] x H; simpl in *;
    try discriminate.
  - inversion H. now rewrite Nat.add_0_r.
  - rewrite (IH (S k) i x H). do 2 f_equal. lia.
Qed.

Lemma enumerate_nth (xs : list A) (i : nat) (x : A) :
  nth_error xs i = Some x ->
  nth_error (Py.enumerate xs) i = Some (i, x).
Proof. intros H. apply (combine_seq_nth xs 0 i x H). Qed.

(** A round of [zip] over arguments that all have an element left. *)
Lemma heads_some (n : nat) (xss : list (list A)) :
  Forall (fun xs => length xs = S n) xss ->
  exists hs,
    Py.heads xss = Some hs /\ length hs = length xss /\
    forall j xs, nth_error xss j = Some xs ->
                 nth_error hs j = nth_error xs 0.
Proof.
  induction 1 as [|xs xss Hx _ (hs & Hh & Hl & Hn)].
  - exists []. repeat split; auto. intros [|j] xs; discriminate.
  - destruct xs as [|x xs]; [discriminate|].
    exists (x :: hs). simpl. rewrite Hh, Hl. repeat split; auto.
    intros [|j] ys Hj; simpl in *.
    + now inversion Hj.
    + now apply Hn.
Qed.

Lemma Forall_tl_length (n : nat) (xss : list (list A)) :
  Forall (fun xs => length xs = S n) xss ->
  Forall (fun xs => length xs = n) (map (@tl A) xss).
Proof.
  induction 1 as [|xs xss Hx _ IH]; simpl; constructor; auto.
  destruct xs; simpl in *; [discriminate | lia].
Qed.

(** The rounds of [zip] over arguments of one length [T]: round [t] holds
    the [t]-th element of every argument, in the order of the arguments. *)
Lemma zip_rounds_nth (T : nat) :
  forall (xss : list (list A)) (t : nat),
    Forall (fun xs => length xs = T) xss ->
    t < T ->
    exists row,
      nth_error (Py.zip_rounds T xss) t = Some row /\
      length row = length xss /\
      forall j xs, nth_error xss j = Some xs ->
                   nth_error row j = nth_error xs t.
Proof.
  induction T as [|T IH]; intros xss t Hall Ht; [lia|].
  destruct (heads_some T xss Hall) as (hs & Hh & Hl & Hn).
  simpl. rewrite Hh. destruct t as [|t].
  - exists hs. auto.
  - destruct (IH (map (@tl A) xss) t (Forall_tl_length T xss Hall))
      as (row & Hr & Hrl & Hrn); [lia|].
    exists row. simpl. split; [exact Hr|]. split.
    + now rewrite Hrl, length_map.
    + intros j xs Hj. rewrite (Hrn j (tl xs)).
      * destruct xs; [now destruct t | reflexivity].
      * now rewrite nth_error_map, Hj.
Qed.

Lemma zip_rounds_length (T : nat) :
  forall xss : list (list A),
    Forall (fun xs => length xs = T) xss ->
    length (Py.zip_rounds T xss) = T.
Proof.
  induction T as [|T IH]; intros xss Hall; [reflexivity|].
  destruct (heads_some T xss Hall) as (hs & Hh & _).
  simpl. rewrite Hh. simpl. f_equal.
  apply IH, Forall_tl_length, Hall.
Qed.

(** [zip] over the unpacked list of [n >= 1] sequences of one length [T]
    gives [T] tuples. *)
Lemma zip_star_length (T : nat) (xss : list (list A)) :
  xss <> [] ->
  Forall (fun xs => length xs = T) xss ->
  length (Py.zip_star xss) = T.
Proof.
  intros Hne Hall. destruct xss as [|xs xss]; [congruence|].
  unfold Py.zip_star. rewrite (Forall_inv Hall).
  now apply zip_rounds_length.
Qed.

(** The [t]-th tuple holds the [t]-th element of every sequence, in the
    order of the sequences. *)
Lemma zip_star_nth (T : nat) (xss : list (list A)) (t : nat) :
  xss <> [] ->
  Forall (fun xs => length xs = T) xss ->
  t < T ->
  exists row,
    nth_error (Py.zip_star xss) t = Some row /\
    length row = length xss /\
    forall j xs, nth_error xss j = Some xs ->
                 nth_error row j = nth_error xs t.
Proof.
  intros Hne Hall Ht. destruct xss as [|xs xss]; [congruence|].
  unfold Py.zip_star. rewrite (Forall_inv Hall).
  now apply zip_rounds_nth.
Qed.

End PyFacts.

(** ** Arrays *)

Section NpFacts.

Lemma size_of_app (sh1 sh2 : list nat) :
  Np.size_of (sh1 ++ sh2) = Np.size_of sh1 * Np.size_of sh2.
Proof.
  unfold Np.size_of. induction sh1 as [|d sh1 IH]; simpl.
  - lia.
  - fold (Np.size_of (sh1 ++ sh2)) in *. rewrite IH.
    fold (Np.size_of sh1) (Np.size_of sh2). lia.
Qed.

(** The [i]-th of [n] consecutive copies of a block. *)
Lemma copies_block (blk : list Z) (n i : nat) :
  i < n ->
  firstn (length blk) (skipn (i * length blk) (concat (repeat blk n))) = blk.
Proof.
  revert i. induction n as [|n IH]; intros i Hi; [lia|].
  simpl. destruct i as [|i].
  - simpl. rewrite firstn_app, Nat.sub_diag, firstn_all. simpl.
    apply app_nil_r.
  - replace (S i * length blk) with (i * length blk + length blk) by lia.
    rewrite <- skipn_skipn, skipn_app, Nat.sub_diag, skipn_all. simpl.
    apply IH. lia.
Qed.

(** Batching succeeds on every array and prepends the batch length. *)
Lemma batch_shape (n : nat) (a : Np.ndarray) :
  exists b, Inpaint.batch n a = Some b /\
            Np.shape b = n :: Np.shape a /\
            Np.data b = concat (repeat (firstn (Np.size_of (Np.shape a))
                                               (Np.data a)) n).
Proof.
  unfold Inpaint.batch, Np.repeat0, Np.expand_dims0. simpl.
  eexists. split; [reflexivity|]. simpl. split.
  - f_equal. lia.
  - now rewrite app_nil_r.
Qed.

Lemma map_seq_const {B} (f : nat -> B) (y : B) (m : nat) :
  forall k, (forall i, k <= i < k + m -> f i = y) ->
            map f (seq k m) = repeat y m.
Proof.
  induction m as [|m IH]; intros k H; simpl; [reflexivity|].
  rewrite H by lia. f_equal. apply IH. intros i Hi. apply H. lia.
Qed.

(** Every element of the batch is the array itself. *)
Lemma batch_copies (n : nat) (a b : Np.ndarray) :
  Np.well_formed a ->
  Inpaint.batch n a = Some b ->
  map (fun i => Np.index0 i b) (seq 0 n) = repeat (Some a) n.
Proof.
  intros Hwf Hb.
  destruct (batch_shape n a) as (b' & Hb' & Hs & Hd).
  rewrite Hb in Hb'. inversion Hb'; subst b'. clear Hb'.
  rewrite firstn_all2 in Hd by (rewrite Hwf; lia).
  apply map_seq_const. intros i [_ Hi]. simpl in Hi.
  unfold Np.index0. rewrite Hs.
  destruct (Nat.ltb_spec i n) as [_|]; [|lia].
  rewrite Hd, <- Hwf, copies_block by assumption.
  now destruct a.
Qed.

(** Appending a channel axis succeeds on every array and keeps the data. *)
Lemma add_channel_shape (a : Np.ndarray) :
  Inpaint.add_channel a
  = Some {| Np.shape := Np.shape a ++ [1]; Np.data := Np.data a |}.
Proof.
  unfold Inpaint.add_channel, Np.reshape.
  rewrite size_of_app. simpl. rewrite Nat.mul_1_r, Nat.eqb_refl.
  reflexivity.
Qed.

Lemma flat_map_length_const {B C} (f : B -> list C) (k : nat) (l : list B) :
  (forall x, length (f x) = k) -> length (flat_map f l) = length l * k.
Proof.
  intros H. induction l as [|x l IH]; simpl; [reflexivity|].
  now rewrite length_app, H, IH.
Qed.

(** The array of an image has as many values as its shape says. *)
Lemma np_array_well_formed (im : PIL.Image) :
  Np.well_formed (PIL.np_array im).
Proof.
  unfold Np.well_formed, PIL.np_array. simpl.
  rewrite (flat_map_length_const _ (PIL.width im * PIL.bands (PIL.mode im))).
  - rewrite length_seq.
    destruct (Nat.eqb_spec (PIL.bands (PIL.mode im)) 1) as [E|_]; simpl.
    + rewrite E. lia.
    + lia.
  - intros y. rewrite (flat_map_length_const _ (PIL.bands (PIL.mode im))).
    + now rewrite length_seq.
    + intros x. unfold PIL.pixel_bands. now rewrite length_map, length_seq.
Qed.

End NpFacts.

(** ** Monitors along computations *)

Section Triples.
Import Nb Flow.
Variable mon : Monitor.

Lemma run_from_app (tr1 tr2 : Trace) :
  forall s,
    run_from mon s (tr1 ++ tr2)
    = match run_from mon s tr1 with
      | Some s' => run_from mon s' tr2
      | None => None
      end.
Proof.
  induction tr1 as [|ev tr1 IH]; intros s; simpl; [reflexivity|].
  destruct (next mon s ev); [apply IH | reflexivity].
Qed.

Lemma triple_conseq {A} (P P' : state mon -> Prop) (m : M A)
      (Q Q' : A -> state mon -> Prop) :
  triple mon P' m Q' ->
  (forall s, P s -> P' s) ->
  (forall x s, Q' x s -> Q x s) ->
  triple mon P m Q.
Proof.
  intros H HP HQ env tr s Hs Ps.
  destruct (H env tr s Hs (HP s Ps)) as (s' & Hs' & Hq).
  exists s'. split; [exact Hs'|]. intros x Hx. apply HQ, Hq, Hx.
Qed.

Lemma triple_ret {A} (P : state mon -> Prop) (x : A) :
  triple mon P (ret x) (fun y s => y = x /\ P s).
Proof.
  intros env tr s Hs Ps. exists s. split; [exact Hs|].
  intros y Hy. simpl in Hy. inversion Hy. auto.
Qed.

Lemma triple_raise {A} (P : state mon -> Prop) (e : Exn)
      (Q : A -> state mon -> Prop) :
  triple mon P (raise e) Q.
Proof.
  intros env tr s Hs Ps. exists s. split; [exact Hs|].
  intros y Hy. discriminate.
Qed.

Lemma triple_bind {A B} (P : state mon -> Prop) (m : M A)
      (Q : A -> state mon -> Prop) (k : A -> M B)
      (R : B -> state mon -> Prop) :
  triple mon P m Q ->
  (forall x, triple mon (Q x) (k x) R) ->
  triple mon P (bind m k) R.
Proof.
  intros Hm Hk env tr s Hs Ps.
  destruct (Hm env tr s Hs Ps) as (s1 & Hs1 & Hq).
  unfold bind. destruct (m env tr) as [[e|x] tr1]; simpl in *.
  - exists s1. split; [exact Hs1|]. intros y Hy. discriminate.
  - apply (Hk x env tr1 s1 Hs1). now apply Hq.
Qed.

(** A computation without events keeps the state. *)
Lemma triple_silent {A} (P : state mon -> Prop) (m : M A) :
  silent m -> triple mon P m (fun _ s => P s).
Proof.
  intros Hm env tr s Hs Ps. exists s. rewrite Hm. auto.
Qed.

Lemma step_all_in (ss ss' : list (state mon)) (ev : Event) (s : state mon) :
  step_all mon ss ev = Some ss' ->
  In s ss ->
  exists s', next mon s ev = Some s' /\ In s' ss'.
Proof.
  revert ss'. induction ss as [|s0 ss IH]; intros ss' Hstep Hin;
    [contradiction|].
  simpl in Hstep.
  destruct (next mon s0 ev) as [s0'|] eqn:E0; [|discriminate].
  destruct (step_all mon ss ev) as [rest|]; [|discriminate].
  inversion Hstep; subst ss'. destruct Hin as [->|Hin].
  - exists s0'. split; [exact E0 | now left].
  - destruct (IH rest eq_refl Hin) as (s' & Hs' & Hin').
    exists s'. split; [exact Hs' | now right].
Qed.

(** A computation that leaves exactly the event [ev]. *)
Lemma triple_emit {A} (m : M A) (ev : Event) (ss ss' : list (state mon)) :
  (forall env tr, snd (m env tr) = tr ++ [ev]) ->
  step_all mon ss ev = Some ss' ->
  triple mon (fun s => In s ss) m (within ss').
Proof.
  intros Hm Hstep env tr s Hs Ps.
  destruct (step_all_in ss ss' ev s Hstep Ps) as (s' & Hs' & Hin).
  exists s'. rewrite Hm, run_from_app, Hs. simpl. rewrite Hs'.
  split; [reflexivity|]. intros; exact Hin.
Qed.

(** An external call from a set of states. *)
Lemma triple_ext (ss ss' : list (state mon)) (ev : Event) :
  step_all mon ss ev = Some ss' ->
  triple mon (fun s => In s ss) (ext ev) (within ss').
Proof. apply triple_emit. reflexivity. Qed.

Lemma triple_shell (ss ss' : list (state mon)) (cmd : string) :
  step_all mon ss (EShell cmd) = Some ss' ->
  triple mon (fun s => In s ss) (shell cmd) (within ss').
Proof. apply triple_emit. reflexivity. Qed.

(** Showing a value displays it or, for [None], does nothing. *)
Lemma triple_show (ss ss' : list (state mon)) (v : Value) :
  step_all mon ss (EDisplay v) = Some ss' ->
  triple mon (fun s => In s ss) (show v) (within (ss ++ ss')).
Proof.
  intros Hstep.
  assert (Hd : forall m : M unit,
             (forall env tr, snd (m env tr) = tr ++ [EDisplay v]) ->
             triple mon (fun s => In s ss) m (within (ss ++ ss'))).
  { intros m Hm. eapply triple_conseq.
    - apply (triple_emit m (EDisplay v) ss ss' Hm Hstep).
    - auto.
    - unfold within. intros _ s Hs. apply in_or_app. now right. }
  destruct v; try (apply Hd; reflexivity).
  eapply triple_conseq; [apply (triple_ret (fun s => In s ss) tt) | auto |].
  unfold within. intros _ s [_ Hs]. apply in_or_app. now left.
Qed.

(** A loop keeps a set of states that its body keeps. *)
Lemma triple_for_each {A B} (ss : list (state mon)) (body : A -> M B)
      (xs : list A) :
  (forall x, triple mon (fun s => In s ss) (body x) (within ss)) ->
  triple mon (fun s => In s ss) (for_each body xs) (within ss).
Proof.
  intros Hbody. induction xs as [|x xs IH]; simpl.
  - eapply triple_conseq;
      [apply (triple_ret (fun s => In s ss)) | auto |].
    unfold within. now intros _ s [_ Hs].
  - eapply triple_bind; [apply Hbody|]. intros y.
    eapply triple_bind; [apply IH|]. intros ys.
    eapply triple_conseq;
      [apply (triple_ret (fun s => In s ss)) | auto |].
    unfold within. now intros _ s [_ Hs].
Qed.

(** A computation without events, from a set of states. *)
Lemma triple_quiet {A} (ss : list (state mon)) (m : M A) :
  silent m -> triple mon (fun s => In s ss) m (within ss).
Proof. intros Hm. apply (triple_silent (fun s => In s ss) m Hm). Qed.

(** Weakening to a larger set of states. *)
Lemma triple_widen {A} (ss1 ss2 ss3 : list (state mon)) (m : M A) :
  triple mon (fun s => In s ss2) m (within ss3) ->
  incl ss1 ss2 ->
  triple mon (fun s => In s ss1) m (within ss3).
Proof.
  intros H Hi. eapply triple_conseq; [exact H | exact Hi | auto].
Qed.

Lemma triple_narrow {A} (ss1 ss2 ss3 : list (state mon)) (m : M A) :
  triple mon (fun s => In s ss1) m (within ss2) ->
  incl ss2 ss3 ->
  triple mon (fun s => In s ss1) m (within ss3).
Proof.
  intros H Hi. eapply triple_conseq; [exact H | auto |].
  unfold within. intros _ s. apply Hi.
Qed.

(** What a computation returns may be added to its postcondition. *)
Lemma triple_value {A} (P : state mon -> Prop) (m : M A)
      (Q : A -> state mon -> Prop) (R : A -> Prop) :
  triple mon P m Q ->
  (forall env tr x tr', m env tr = (inr x, tr') -> R x) ->
  triple mon P m (fun x s => Q x s /\ R x).
Proof.
  intros H HR env tr s Hs Ps.
  destruct (H env tr s Hs Ps) as (s' & Hs' & Hq).
  exists s'. split; [exact Hs'|]. intros x Hx. split; [now apply Hq|].
  apply (HR env tr x (snd (m env tr))).
  destruct (m env tr); simpl in *. now subst.
Qed.

(** A fact that does not depend on the state may be assumed. *)
Lemma triple_assume {A} (R : Prop) (P : state mon -> Prop) (m : M A)
      (Q : A -> state mon -> Prop) :
  (R -> triple mon P m Q) ->
  triple mon (fun s => P s /\ R) m Q.
Proof. intros H env tr s Hs [Ps HR]. now apply (H HR env tr s). Qed.

(** A triple from the initial state gives an accepted trace. *)
Lemma triple_accepts {A} (m : M A) (ss : list (state mon)) env :
  triple mon (fun s => In s [init mon]) m (within ss) ->
  accepts mon (trace m env) = true.
Proof.
  intros H. unfold accepts, trace, run.
  destruct (H env [] (init mon) eq_refl (or_introl eq_refl)) as (s' & -> & _).
  reflexivity.
Qed.

End Triples.

Section Silent.
Import Nb Flow.

Lemma silent_ret {A} (x : A) : silent (ret x).
Proof. now intros env tr. Qed.

Lemma silent_raise {A} (e : Exn) : silent (@raise A e).
Proof. now intros env tr. Qed.

Lemma silent_bind {A B} (m : M A) (k : A -> M B) :
  silent m -> (forall x, silent (k x)) -> silent (bind m k).
Proof.
  intros Hm Hk env tr. unfold bind. specialize (Hm env tr).
  destruct (m env tr) as [[e|x] tr1]; simpl in *; subst; [reflexivity|].
  apply Hk.
Qed.

Lemma silent_for_each {A B} (body : A -> M B) (xs : list A) :
  (forall x, silent (body x)) -> silent (for_each body xs).
Proof.
  intros Hb. induction xs as [|x xs IH]; simpl.
  - apply silent_ret.
  - apply silent_bind; [apply Hb|]. intros y.
    apply silent_bind; [apply IH|]. intros ys. apply silent_ret.
Qed.

Lemma silent_getitem (v : Value) (i : nat) : silent (getitem v i).
Proof.
  destruct v; simpl; try apply silent_raise; try (now intros env tr).
  - destruct (String.get i s); [apply silent_ret | apply silent_raise].
  - destruct (nth_error l i); [apply silent_ret | apply silent_raise].
  - destruct (Np.index0 i a); [apply silent_ret | apply silent_raise].
Qed.

Lemma silent_iter (v : Value) : silent (iter v).
Proof.
  destruct v; simpl; try apply silent_raise; try apply silent_ret;
    try (now intros env tr).
  destruct (Np.shape a); [apply silent_raise | apply silent_ret].
Qed.

Lemma silent_zip_star (v : Value) : silent (zip_star v).
Proof.
  apply silent_bind; [apply silent_iter|]. intros args.
  apply silent_bind; [apply silent_for_each, silent_iter|]. intros xss.
  apply silent_ret.
Qed.

Lemma silent_np_try (what : string) (r : option Np.ndarray) :
  silent (np_try what r).
Proof. destruct r; [apply silent_ret | apply silent_raise]. Qed.

End Silent.

(** [convert] on an image leaves its event; on anything else it raises
    without one. *)
Lemma triple_image_convert (mon : Flow.Monitor)
      (ss ss' : list (Flow.state mon)) (m : string) (v : Nb.Value) :
  Flow.step_all mon ss (Nb.convert_event m v) = Some ss' ->
  Flow.triple mon (fun s => In s ss) (Nb.image_convert m v)
              (Flow.within (ss ++ ss')).
Proof.
  intros Hstep.
  destruct v; simpl; try apply triple_raise.
  eapply triple_narrow.
  - apply (triple_emit mon _ (Nb.convert_event m (Nb.VImage im)) ss ss');
      [reflexivity | exact Hstep].
  - apply incl_appr, incl_refl.
Qed.

(** ** The two notebooks under the monitors *)

(** One statement of a cell: the rule of its head, the next state set by
    evaluation.  [loop] is the tactic for a [for] loop. *)
Ltac incl_eval := lazy; intros ? ?; tauto.

Ltac triple_steps_with loop other :=
  lazymatch goal with
  | |- Flow.triple _ _ (Nb.bind _ _) _ =>
      eapply triple_bind;
      [ triple_steps_with loop other
      | intros ?; triple_steps_with loop other ]
  | |- Flow.triple _ _ (Nb.ext _) _ => apply triple_ext; lazy; reflexivity
  | |- Flow.triple _ _ (Nb.call _ _ _) _ => apply triple_ext; lazy; reflexivity
  | |- Flow.triple _ _ (Nb.import_ _) _ => apply triple_ext; lazy; reflexivity
  | |- Flow.triple _ _ (Nb.shell _) _ => apply triple_shell; lazy; reflexivity
  | |- Flow.triple _ _ (Nb.show _) _ => apply triple_show; lazy; reflexivity
  | |- Flow.triple _ _ (Nb.ret _) _ => apply triple_quiet, silent_ret
  | |- Flow.triple _ _ (Nb.getitem _ _) _ => apply triple_quiet, silent_getitem
  | |- Flow.triple _ _ (Nb.zip_star _) _ => apply triple_quiet, silent_zip_star
  | |- Flow.triple _ _ (Nb.np_try _ _) _ => apply triple_quiet, silent_np_try
  | |- Flow.triple _ _ (Nb.image_convert _ _) _ =>
      apply triple_image_convert; lazy; reflexivity
  | |- Flow.triple _ _ (Nb.for_each _ _) _ => loop
  | |- _ => other
  end.

Ltac triple_steps loop := triple_steps_with loop fail.

(** A loop whose body keeps the set of states [inv]. *)
Ltac loop_with mon inv :=
  eapply triple_widen;
  [ apply (triple_for_each mon inv); intros ?;
    eapply triple_narrow; [ triple_steps idtac | incl_eval ]
  | incl_eval ].

(** A loop whose body keeps the current set of states. *)
Ltac loop_same :=
  apply triple_for_each; intros ?;
  eapply triple_narrow; [ triple_steps idtac | incl_eval ].

Ltac unfold_cells :=
  unfold TextToImage.notebook, TextToImage.cell2, TextToImage.cell3,
    TextToImage.cell5, TextToImage.cell6, TextToImage.cell8,
    TextToImage.cell12, TextToImage.cell14, TextToImage.cell16,
    TextToImage.cell17, TextToImage.cell19,
    Inpaint.notebook, Inpaint.cell2, Inpaint.cell4, Inpaint.cell6,
    Inpaint.cell8, Inpaint.cell10, Inpaint.cell12, Inpaint.cell14.

Section TextToImageFlow.
Import Nb Flow TextToImage.

Lemma t2i_interface (p : Params) :
  exists ss, triple (always interface_ok) (fun s => In s [tt])
                    (notebook p) (within ss).
Proof. eexists. unfold_cells. triple_steps loop_same. Qed.

Lemma t2i_construct_before_seed (p : Params) :
  exists ss, triple (precedes is_construct is_seed) (fun s => In s [false])
                    (notebook p) (within ss).
Proof. eexists. unfold_cells. triple_steps loop_same. Qed.

Lemma t2i_seed_before_call (p : Params) :
  exists ss, triple (precedes is_seed is_pipeline_call)
                    (fun s => In s [false]) (notebook p) (within ss).
Proof. eexists. unfold_cells. triple_steps loop_same. Qed.

Lemma t2i_construct_before_call (p : Params) :
  exists ss, triple (precedes is_construct is_pipeline_call)
                    (fun s => In s [false]) (notebook p) (within ss).
Proof. eexists. unfold_cells. triple_steps loop_same. Qed.

Lemma t2i_order_per_call (p : Params) :
  exists ss, triple order_per_call (fun s => In s [None])
                    (notebook p) (within ss).
Proof.
  eexists. unfold_cells.
  triple_steps ltac:(loop_with order_per_call
                               [Some CallPipeline; Some PostProcess]).
Qed.

End TextToImageFlow.

Section InpaintFlow.
Import Nb Flow Inpaint.

Lemma inpaint_interface (p : Params) :
  exists ss, triple (always interface_ok) (fun s => In s [tt])
                    (notebook p) (within ss).
Proof. eexists. unfold_cells. triple_steps loop_same. Qed.

Lemma inpaint_construct_before_seed (p : Params) :
  exists ss, triple (precedes is_construct is_seed) (fun s => In s [false])
                    (notebook p) (within ss).
Proof. eexists. unfold_cells. triple_steps loop_same. Qed.

Lemma inpaint_seed_before_call (p : Params) :
  exists ss, triple (precedes is_seed is_pipeline_call)
                    (fun s => In s [false]) (notebook p) (within ss).
Proof. eexists. unfold_cells. triple_steps loop_same. Qed.

Lemma inpaint_construct_before_call (p : Params) :
  exists ss, triple (precedes is_construct is_pipeline_call)
                    (fun s => In s [false]) (notebook p) (within ss).
Proof. eexists. unfold_cells. triple_steps loop_same. Qed.

Lemma inpaint_order_per_call (p : Params) :
  exists ss, triple order_per_call (fun s => In s [None])
                    (notebook p) (within ss).
Proof. eexists. unfold_cells. triple_steps loop_same. Qed.

End InpaintFlow.

(** ** Propagation of failures *)

Section Propagation.
Import Nb Flow.

Lemma split_at_event (evs1 evs2 pre post : Trace) (ev : Event) :
  evs1 ++ evs2 = pre ++ ev :: post ->
  (exists post1, evs1 = pre ++ ev :: post1 /\ post = post1 ++ evs2) \/
  (exists pre2, pre = evs1 ++ pre2 /\ evs2 = pre2 ++ ev :: post).
Proof.
  intros H. apply app_eq_app in H. destruct H as (l & [[H1 H2]|[H1 H2]]).
  - destruct l as [|ev' l]; simpl in H2.
    + right. exists []. rewrite app_nil_r in *. now subst.
    + left. inversion H2; subst. now exists l.
  - right. now exists l.
Qed.

Lemma propagates_silent {A} (m : M A) : silent m -> propagates m.
Proof.
  intros Hm env tr. exists []. rewrite Hm, app_nil_r. split; [reflexivity|].
  intros [|ev0 pre] ev post e0 H; discriminate.
Qed.

Lemma propagates_one {A} (m : M A) (ev : Event) :
  (forall env tr, snd (m env tr) = tr ++ [ev]) ->
  (forall env tr e, answer env tr ev = inl e -> fst (m env tr) = inl e) ->
  propagates m.
Proof.
  intros Htr Hres env tr. exists [ev]. split; [apply Htr|].
  intros pre ev' post e H Ha.
  destruct pre as [|? pre]; simpl in H.
  - inversion H; subst. rewrite app_nil_r in Ha. auto.
  - inversion H. now destruct pre.
Qed.

Lemma propagates_call (f : string) (args : list Value)
      (kwargs : list (string * Value)) :
  propagates (call f args kwargs).
Proof. apply (propagates_one _ (ECall f args kwargs)); auto. Qed.

Lemma propagates_import (names : list string) : propagates (import_ names).
Proof. apply (propagates_one _ (EImport names)); auto. Qed.

Lemma propagates_image_convert (m : string) (v : Value) :
  propagates (image_convert m v).
Proof.
  destruct v; simpl; try apply propagates_silent, silent_raise.
  apply (propagates_one _ (convert_event m (VImage im))); [reflexivity|].
  intros env tr e H. simpl in *. now rewrite H.
Qed.

Lemma propagates_shell (cmd : string) : propagates (shell cmd).
Proof.
  apply (propagates_one _ (EShell cmd)); [reflexivity|].
  intros env tr e H. discriminate.
Qed.

Lemma propagates_show (v : Value) : propagates (show v).
Proof.
  assert (Hd : forall m : M unit,
             (forall env tr, snd (m env tr) = tr ++ [EDisplay v]) ->
             propagates m).
  { intros m Hm. apply (propagates_one _ (EDisplay v) Hm).
    intros env tr e H. discriminate. }
  destruct v; try (apply Hd; reflexivity).
  apply propagates_silent, silent_ret.
Qed.

(** Sequencing has no handler: a failure of the first statement is the
    failure of the sequence, and the second statement does not run. *)
Lemma propagates_bind {A B} (m : M A) (k : A -> M B) :
  propagates m -> (forall x, propagates (k x)) -> propagates (bind m k).
Proof.
  intros Hm Hk env tr. destruct (Hm env tr) as (evs1 & Ht1 & H1).
  unfold bind. destruct (m env tr) as [[e1|x] tr1] eqn:Em; simpl in *.
  - exists evs1. split; [exact Ht1|].
    intros pre ev post e Hsplit Ha.
    destruct (H1 pre ev post e Hsplit Ha) as [Hp He].
    split; [exact Hp | congruence].
  - subst tr1. destruct (Hk x env (tr ++ evs1)) as (evs2 & Ht2 & H2).
    exists (evs1 ++ evs2). rewrite Ht2, app_assoc. split; [reflexivity|].
    intros pre ev post e Hsplit Ha.
    destruct (split_at_event _ _ _ _ _ Hsplit)
      as [(post1 & E1 & E2)|(pre2 & E1 & E2)].
    + destruct (H1 pre ev post1 e E1 Ha) as [_ Hbad]. discriminate.
    + subst pre. rewrite app_assoc in Ha. exact (H2 pre2 ev post e E2 Ha).
Qed.

Lemma propagates_for_each {A B} (body : A -> M B) (xs : list A) :
  (forall x, propagates (body x)) -> propagates (for_each body xs).
Proof.
  intros Hb. induction xs as [|x xs IH]; simpl.
  - apply propagates_silent, silent_ret.
  - apply propagates_bind; [apply Hb|]. intros y.
    apply propagates_bind; [apply IH|]. intros ys.
    apply propagates_silent, silent_ret.
Qed.

End Propagation.

Ltac propagates_steps :=
  lazymatch goal with
  | |- Flow.propagates (Nb.bind _ _) =>
      apply propagates_bind; [ propagates_steps | intros ?; propagates_steps ]
  | |- Flow.propagates (Nb.call _ _ _) => apply propagates_call
  | |- Flow.propagates (Nb.import_ _) => apply propagates_import
  | |- Flow.propagates (Nb.shell _) => apply propagates_shell
  | |- Flow.propagates (Nb.show _) => apply propagates_show
  | |- Flow.propagates (Nb.for_each _ _) =>
      apply propagates_for_each; intros ?; propagates_steps
  | |- Flow.propagates (Nb.ret _) => apply propagates_silent, silent_ret
  | |- Flow.propagates (Nb.getitem _ _) =>
      apply propagates_silent, silent_getitem
  | |- Flow.propagates (Nb.zip_star _) =>
      apply propagates_silent, silent_zip_star
  | |- Flow.propagates (Nb.np_try _ _) =>
      apply propagates_silent, silent_np_try
  | |- Flow.propagates (Nb.image_convert _ _) =>
      apply propagates_image_convert
  end.

Lemma t2i_propagates (p : TextToImage.Params) :
  Flow.propagates (TextToImage.notebook p).
Proof. unfold_cells. propagates_steps. Qed.

Lemma inpaint_propagates (p : Inpaint.Params) :
  Flow.propagates (Inpaint.notebook p).
Proof. unfold_cells. propagates_steps. Qed.

(** ** The input preparation of the inpainting notebook *)

Section Preparation.
Import Nb Inpaint.

Lemma bind_run {A B} (m : M A) (k : A -> M B) (env : Env) (tr : Trace) :
  bind m k env tr
  = match m env tr with
    | (inl e, tr') => (inl e, tr')
    | (inr x, tr') => k x env tr'
    end.
Proof. reflexivity. Qed.

Lemma show_run (v : Value) (env : Env) (tr : Trace) :
  show v env tr = (inr tt, tr ++ Flow.displayed v).
Proof.
  destruct v; simpl; try reflexivity. unfold ret. now rewrite app_nil_r.
Qed.

(** The run of cell 10 when it returns: the answers of the two
    [Image.open] calls are images, and the arrays, the trace and the grid
    shown are these. *)
Lemma cell10_run (p : Params) (env : Env) (tr tr' : Trace)
      (arrays : Np.ndarray * Np.ndarray) :
  cell10 p env tr = (inr arrays, tr') ->
  exists original_image mask grid,
    let opened :=
      tr ++ [ECall "Image.open" [VStr (image_filename p)] [];
             ECall "Image.open" [VStr (mask_filename p)] []] in
    let converted :=
      opened ++ [convert_event "RGB" (VImage original_image);
                 convert_event "L" (VImage mask)] in
    let printed :=
      converted ++ [ECall "print" [VStr "Original and mask image:"] []] in
    let grid_call :=
      ECall "image_grid" [VSeq [VImage original_image; VImage mask]]
            [("rows", VInt 1); ("cols", VInt 2)] in
    ext_call env tr (ECall "Image.open" [VStr (image_filename p)] [])
      = inr (VImage original_image) /\
    ext_call env (tr ++ [ECall "Image.open" [VStr (image_filename p)] []])
             (ECall "Image.open" [VStr (mask_filename p)] [])
      = inr (VImage mask) /\
    start_image_of (convert_pixel env) (num_images p) original_image
      = Some (fst arrays) /\
    mask_image_of (convert_pixel env) (num_images p) mask
      = Some (snd arrays) /\
    ext_call env printed grid_call = inr grid /\
    tr' = printed ++ grid_call :: Flow.displayed grid.
Proof.
  unfold cell10. intros H.
  rewrite bind_run in H. unfold call at 1, ext at 1 in H.
  destruct (ext_call env tr _) as [e|v1] eqn:E1; [discriminate|].
  rewrite bind_run in H. unfold call at 1, ext at 1 in H.
  destruct (ext_call env (tr ++ _) _) as [e|v2] eqn:E2; [discriminate|].
  rewrite bind_run in H.
  destruct v1 as [| | | | | | |original|]; try discriminate.
  unfold image_convert at 1 in H.
  destruct (ext_call env _ (convert_event "RGB" _)) as [e|c1];
    [discriminate|].
  rewrite bind_run in H.
  destruct v2 as [| | | | | | |mask|]; try discriminate.
  unfold image_convert at 1 in H.
  destruct (ext_call env _ (convert_event "L" _)) as [e|c2];
    [discriminate|].
  destruct (batch_shape (num_images p)
              (PIL.np_array (PIL.convert (convert_pixel env) "RGB" original)))
    as (s & Hs & _).
  destruct (batch_shape (num_images p)
              (PIL.np_array (PIL.convert (convert_pixel env) "L" mask)))
    as (m & Hm & _).
  rewrite bind_run, Hs in H. cbn [np_try ret] in H.
  rewrite bind_run, Hm in H. cbn [np_try ret] in H.
  rewrite bind_run, add_channel_shape in H. cbn [np_try ret] in H.
  rewrite bind_run in H. unfold call at 1, ext at 1 in H.
  destruct (ext_call env _ (ECall "print" _ _)) as [e|v3]; [discriminate|].
  rewrite bind_run in H. unfold call at 1, ext at 1 in H.
  destruct (ext_call env _ (ECall "image_grid" _ _)) as [e|grid] eqn:Eg;
    [discriminate|].
  rewrite bind_run, show_run in H. cbn [ret] in H. inversion H.
  exists original, mask, grid. cbn zeta.
  unfold start_image_of, mask_image_of. rewrite Hs, Hm, add_channel_shape.
  repeat split; try reflexivity.
  - rewrite <- Eg. f_equal. now rewrite <- !app_assoc.
  - now rewrite <- !app_assoc.
Qed.

(** What cell 10 returns are the arrays built from the two opened files. *)
Lemma cell10_returns (p : Params) (env : Env) (tr tr' : Trace)
      (arrays : Np.ndarray * Np.ndarray) :
  cell10 p env tr = (inr arrays, tr') ->
  exists original_image mask,
    ext_call env tr (ECall "Image.open" [VStr (image_filename p)] [])
      = inr (VImage original_image) /\
    ext_call env (tr ++ [ECall "Image.open" [VStr (image_filename p)] []])
             (ECall "Image.open" [VStr (mask_filename p)] [])
      = inr (VImage mask) /\
    start_image_of (convert_pixel env) (num_images p) original_image
      = Some (fst arrays) /\
    mask_image_of (convert_pixel env) (num_images p) mask
      = Some (snd arrays).
Proof.
  intros H.
  destruct (cell10_run p env tr tr' arrays H)
    as (im & mk & grid & H1 & H2 & H3 & H4 & _).
  exists im, mk. auto.
Qed.

(** [start_image]: one copy of the RGB array of the file per image. *)
Lemma start_image_spec (cp : string -> string -> list Z -> list Z)
      (n : nat) (im : PIL.Image) :
  exists s,
    start_image_of cp n im = Some s /\
    Np.shape s = [n; PIL.height im; PIL.width im; 3] /\
    map (fun i => Np.index0 i s) (seq 0 n)
    = repeat (Some (PIL.np_array (PIL.convert cp "RGB" im))) n.
Proof.
  unfold start_image_of.
  destruct (batch_shape n (PIL.np_array (PIL.convert cp "RGB" im)))
    as (s & Hs & Hsh & _).
  exists s. split; [exact Hs|]. split; [exact Hsh|].
  apply batch_copies; [apply np_array_well_formed | exact Hs].
Qed.

(** Batching and then appending the channel axis gives one copy of the
    array with its channel axis per image. *)
Lemma batch_then_channel (n : nat) (a : Np.ndarray) :
  Np.well_formed a ->
  exists m,
    match batch n a with Some b => add_channel b | None => None end = Some m /\
    Np.shape m = n :: Np.shape a ++ [1] /\
    map (fun i => Np.index0 i m) (seq 0 n) = repeat (add_channel a) n.
Proof.
  intros Hwf. destruct (batch_shape n a) as (b & Hb & Hsh & Hd).
  rewrite firstn_all2 in Hd by (rewrite Hwf; lia).
  rewrite Hb, !add_channel_shape. eexists. split; [reflexivity|].
  cbn [Np.shape Np.data]. rewrite Hsh. split; [reflexivity|].
  apply map_seq_const. intros i [_ Hi]. cbn in Hi.
  unfold Np.index0. cbn [Np.shape Np.data app].
  destruct (Nat.ltb_spec i n) as [_|]; [|lia].
  rewrite Hd, size_of_app. cbn [Np.size_of fold_right].
  rewrite !Nat.mul_1_r. fold (Np.size_of (Np.shape a)).
  rewrite <- Hwf, copies_block by assumption. reflexivity.
Qed.

(** [mask_image]: one copy of the single-channel array of the file per
    image. *)
Lemma mask_image_spec (cp : string -> string -> list Z -> list Z)
      (n : nat) (mk : PIL.Image) :
  exists m,
    mask_image_of cp n mk = Some m /\
    Np.shape m = [n; PIL.height mk; PIL.width mk; 1] /\
    map (fun i => Np.index0 i m) (seq 0 n)
    = repeat (add_channel (PIL.np_array (PIL.convert cp "L" mk))) n.
Proof.
  unfold mask_image_of.
  destruct (batch_then_channel n (PIL.np_array (PIL.convert cp "L" mk))
              (np_array_well_formed _)) as (m & Hm & Hsh & Hc).
  exists m. split; [exact Hm|]. split; [exact Hsh | exact Hc].
Qed.

End Preparation.

(** ** Batch lengths of the pipeline calls *)

Section Batches.
Import Nb Flow.

Lemma t2i_call_batches (p : TextToImage.Params) :
  batch_lengths_match false (TextToImage.cell14_kwargs p) = true.
Proof.
  unfold batch_lengths_match, TextToImage.cell14_kwargs, vstrs. cbn.
  now rewrite !length_map, list_times_length, Nat.eqb_refl.
Qed.

Lemma inpaint_call_batches (p : Inpaint.Params) (s m : Np.ndarray) :
  Np.leading s = Some (Inpaint.num_images p) ->
  Np.leading m = Some (Inpaint.num_images p) ->
  batch_lengths_match true (Inpaint.cell12_kwargs p s m) = true.
Proof.
  intros Hs Hm.
  unfold batch_lengths_match, Inpaint.cell12_kwargs, vstrs. cbn.
  rewrite Hs, Hm, !length_map, list_times_length.
  unfold Inpaint.num_images, Py.len. now rewrite Nat.eqb_refl.
Qed.

(** The arrays of cell 10 have the batch length of the prompts. *)
Lemma cell10_leading (p : Inpaint.Params) (env : Env) (tr tr' : Trace)
      (arrays : Np.ndarray * Np.ndarray) :
  Inpaint.cell10 p env tr = (inr arrays, tr') ->
  Np.leading (fst arrays) = Some (Inpaint.num_images p) /\
  Np.leading (snd arrays) = Some (Inpaint.num_images p).
Proof.
  intros H.
  destruct (cell10_returns p env tr tr' arrays H)
    as (im & mk & _ & _ & Hs & Hm).
  destruct (start_image_spec (convert_pixel env) (Inpaint.num_images p) im)
    as (s & Hs' & Hsh & _).
  destruct (mask_image_spec (convert_pixel env) (Inpaint.num_images p) mk)
    as (m & Hm' & Hmh & _).
  rewrite Hs in Hs'. rewrite Hm in Hm'.
  injection Hs' as Es. injection Hm' as Em.
  unfold Np.leading. now rewrite Es, Em, Hsh, Hmh.
Qed.

Lemma always_call (ok : Event -> bool) (ev : Event) (P : unit -> Prop) :
  ok ev = true ->
  triple (always ok) P (ext ev) (within [tt]).
Proof.
  intros H env tr s Hs Ps. exists tt. unfold ext. cbn [fst snd].
  rewrite (run_from_app (always ok)), Hs. simpl. rewrite H.
  split; [reflexivity | intros; now left].
Qed.

Lemma t2i_batches (p : TextToImage.Params) :
  exists ss, triple (always (batches_ok false)) (fun s => In s [tt])
                    (TextToImage.notebook p) (within ss).
Proof.
  eexists.
  unfold TextToImage.notebook, TextToImage.cell2, TextToImage.cell3,
    TextToImage.cell5, TextToImage.cell6, TextToImage.cell8,
    TextToImage.cell12, TextToImage.cell16, TextToImage.cell17,
    TextToImage.cell19.
  triple_steps_with loop_same
    ltac:(apply always_call; apply t2i_call_batches).
Qed.

Lemma inpaint_batches (p : Inpaint.Params) :
  exists ss, triple (always (batches_ok true)) (fun s => In s [tt])
                    (Inpaint.notebook p) (within ss).
Proof.
  assert (H10 : triple (always (batches_ok true)) (fun s => In s [tt])
                  (Inpaint.cell10 p)
                  (fun arrays s =>
                     within [tt] arrays s /\
                     (Np.leading (fst arrays) = Some (Inpaint.num_images p) /\
                      Np.leading (snd arrays) = Some (Inpaint.num_images p)))).
  { apply triple_value;
      [| intros env tr x tr'; apply (cell10_leading p env tr tr' x)].
    eapply triple_narrow; [unfold_cells; triple_steps loop_same|incl_eval]. }
  eexists.
  unfold Inpaint.notebook, Inpaint.cell2, Inpaint.cell4, Inpaint.cell6,
    Inpaint.cell8, Inpaint.cell14.
  triple_steps_with loop_same
    ltac:(first
            [ eapply triple_conseq;
              [ apply H10
              | intros [] _; now left
              | intros ? ? Hq; exact Hq ]
            | apply triple_assume; intros [Hs Hm];
              apply always_call; apply inpaint_call_batches; assumption ]).
Qed.

End Batches.

(** ** The pipeline call of the specification *)

Section PipelineFacts.
Import PipelineSpec.
Context {Prompt Picture Latent Image : Type}.
Variable latent_history :
  Request Prompt Picture -> Sample Prompt Picture -> list Latent.
Variable final_latent :
  Request Prompt Picture -> Sample Prompt Picture -> Latent.
Variable decode : Latent -> Image.

Lemma samples_length (r : Request Prompt Picture) :
  length (samples r) = length (prompts r).
Proof. unfold samples. now rewrite length_map, enumerate_length. Qed.

Lemma samples_nth (r : Request Prompt Picture) (i : nat) (p : Prompt) :
  nth_error (prompts r) i = Some p ->
  nth_error (samples r) i = Some (sample_at r i p).
Proof.
  intros H. unfold samples.
  now rewrite nth_error_map, (enumerate_nth _ _ _ H).
Qed.

Lemma call_some (r : Request Prompt Picture) :
  batch_ok r = true ->
  call latent_history final_latent decode r
  = Some (map (result_for latent_history final_latent decode r) (samples r)).
Proof. intros H. unfold call. now rewrite H. Qed.

End PipelineFacts.

(** ** Grids *)

Section Grids.
Import Flow.

(** Two rows of the rounded-up half always have room. *)
Lemma inpaint_grid_fits (p : Inpaint.Params) :
  grid_fits (Inpaint.num_images p) Inpaint.grid_rows (Inpaint.grid_cols p)
  = true.
Proof.
  unfold grid_fits, Inpaint.grid_rows, Inpaint.grid_cols, Py.ceil_half.
  apply Nat.leb_le.
  pose proof (Nat.div_mod_eq (Inpaint.num_images p + 1) 2) as H.
  pose proof (Nat.mod_upper_bound (Inpaint.num_images p + 1) 2) as Hm.
  lia.
Qed.

(** Two rows of the rounded-down half have room exactly for an even
    number of images. *)
Lemma t2i_grid_fits_iff_even (p : TextToImage.Params) :
  grid_fits (Py.len (TextToImage.prompts p)) TextToImage.grid_rows
            (TextToImage.grid_cols p) = true
  <-> Nat.even (Py.len (TextToImage.prompts p)) = true.
Proof.
  unfold grid_fits, TextToImage.grid_rows, TextToImage.grid_cols,
    Py.floordiv2.
  set (n := Py.len (TextToImage.prompts p)).
  pose proof (Nat.div_mod_eq n 2) as H.
  pose proof (Nat.mod_upper_bound n 2) as Hm.
  rewrite Nat.leb_le, Nat.even_spec. split.
  - intros Hle. exists (n / 2). lia.
  - intros [k Hk]. rewrite Hk.
    rewrite (Nat.mul_comm 2 k), Nat.div_mul by lia. lia.
Qed.

(** With the four prompts of the notebook the grid is 2x2. *)
Lemma t2i_shipped_grid_fits :
  grid_fits (Py.len (TextToImage.prompts TextToImage.shipped))
            TextToImage.grid_rows
            (TextToImage.grid_cols TextToImage.shipped) = true.
Proof. reflexivity. Qed.

End Grids.

(** ** The monitors on concrete traces *)

Section Sanity.
Import Nb Flow.

(** An option outside the recognized set is rejected. *)
Lemma interface_rejects_unknown_option :
  accepts (always interface_ok)
          [ECall "__call__" [VObj "model" 0]
                 [("prompt", VStr "a castle"); ("strength", VInt 1)]]
  = false.
Proof. reflexivity. Qed.

(** A constructor without a model identifier is rejected. *)
Lemma interface_rejects_anonymous_model :
  accepts (always interface_ok)
          [ECall "InpaintDiffusion" [] [("torch_dtype", VObj "torch.dtype" 16)]]
  = false.
Proof. reflexivity. Qed.

(** Two negative prompts for three prompts are rejected; so are a list of
    prompts without negative prompts, an inpainting call without image and
    mask, and a call without options. *)
Lemma batches_reject_short_negative :
  batch_lengths_match false
    [("prompt", vstrs ["a"; "b"; "c"]);
     ("negative_prompt", vstrs ["x"; "y"])]
  = false.
Proof. reflexivity. Qed.

Lemma batches_reject_absent_options :
  batch_lengths_match false [("prompt", vstrs ["a"; "b"])] = false /\
  batch_lengths_match true
    [("prompt", vstrs ["a"; "b"]); ("negative_prompt", vstrs ["x"; "y"])]
  = false /\
  batch_lengths_match true [("prompt", VStr "a")] = false /\
  batch_lengths_match false [] = false /\
  batch_lengths_match true [] = false.
Proof. repeat split; reflexivity. Qed.

(** Both notebooks do reach their pipeline calls when nothing fails. *)
Lemma pipeline_calls_reached :
  length (filter is_pipeline_call
                 (trace (TextToImage.notebook TextToImage.shipped)
                        Examples.env_ok)) = 2 /\
  length (filter is_pipeline_call
                 (trace (Inpaint.notebook Inpaint.shipped)
                        Examples.env_ok)) = 1.
Proof. split; reflexivity. Qed.

(** The text-to-image notebook displays before it post-processes, and the
    inpainting notebook builds and displays a grid before it calls the
    pipeline. *)
Lemma t2i_displays_before_postprocessing :
  accepts (precedes is_postprocess is_display)
          (trace (TextToImage.notebook TextToImage.shipped) Examples.env_ok)
  = false.
Proof. reflexivity. Qed.

Lemma inpaint_grid_before_call :
  accepts fixed_order
          (trace (Inpaint.notebook Inpaint.shipped) Examples.env_ok)
  = false
  /\ accepts (precedes is_pipeline_call is_postprocess)
             (trace (Inpaint.notebook Inpaint.shipped) Examples.env_ok)
     = false.
Proof. split; reflexivity. Qed.

(** An out-of-memory failure of the pipeline ends both notebooks with
    that exception. *)
Lemma out_of_memory_ends_the_run :
  result (TextToImage.notebook TextToImage.shipped) Examples.env_oom
  = inl Examples.out_of_memory /\
  result (Inpaint.notebook Inpaint.shipped) Examples.env_oom
  = inl Examples.out_of_memory.
Proof. split; reflexivity. Qed.

End Sanity.

(* ===================================================================== *)
(** * The claims *)
(* ===================================================================== *)

Lemma accepts_both (mon : Flow.Monitor) :
  (forall p, exists ss,
      Flow.triple mon (fun s => In s [Flow.init mon])
                  (TextToImage.notebook p) (Flow.within ss)) ->
  (forall p, exists ss,
      Flow.triple mon (fun s => In s [Flow.init mon])
                  (Inpaint.notebook p) (Flow.within ss)) ->
  forall nb env, Flow.accepts mon (Nb.trace (cells nb) env) = true.
Proof.
  intros H1 H2 [p|p] env; simpl.
  - destruct (H1 p) as (ss & H). apply (triple_accepts mon _ ss env H).
  - destruct (H2 p) as (ss & H). apply (triple_accepts mon _ ss env H).
Qed.

(** C1, as stated, fails for a call with the latent-history flag: the
    output holds, for every prompt, the images of all its steps. *)
Lemma C1_counterexample :
  exists out,
    PipelineSpec.call Examples.toy_history Examples.toy_final
                      Examples.toy_decode (Examples.toy_request true)
    = Some out /\
    ~ PipelineSpec.one_image_per_prompt (Examples.toy_request true) out.
Proof.
  eexists. split; [reflexivity|].
  intros [_ H]. inversion H as [|x l Hx _]. discriminate Hx.
Qed.

(** C1, amended: a pipeline call with a list of prompts (and negative
    prompts, images and masks, where given, of the same length) returns a
    result; the result has exactly one entry per prompt, the i-th entry is
    the one generated from the i-th prompt, and without the latent-history
    flag every entry is exactly one image. *)
Theorem C1_one_result_per_prompt
        {Prompt Picture Latent Image : Type}
        (latent_history :
           PipelineSpec.Request Prompt Picture ->
           PipelineSpec.Sample Prompt Picture -> list Latent)
        (final_latent :
           PipelineSpec.Request Prompt Picture ->
           PipelineSpec.Sample Prompt Picture -> Latent)
        (decode : Latent -> Image)
        (r : PipelineSpec.Request Prompt Picture) :
  PipelineSpec.batch_ok r = true ->
  exists out,
    PipelineSpec.call latent_history final_latent decode r = Some out /\
    length out = length (PipelineSpec.prompts r) /\
    (forall i p,
        nth_error (PipelineSpec.prompts r) i = Some p ->
        PipelineSpec.s_prompt (PipelineSpec.sample_at r i p) = p /\
        nth_error out i
        = Some (PipelineSpec.result_for latent_history final_latent decode r
                                        (PipelineSpec.sample_at r i p))) /\
    (PipelineSpec.return_latent_history r = false ->
     Forall (fun x => length (PipelineSpec.images_of x) = 1) out).
Proof.
  intros Hok. eexists. split; [apply call_some, Hok|].
  split; [now rewrite length_map, samples_length|]. split.
  - intros i p Hp. split; [reflexivity|].
    now rewrite nth_error_map, (samples_nth r i p Hp).
  - intros Hflag. apply Forall_map, Forall_forall. intros s _.
    unfold PipelineSpec.result_for. now rewrite Hflag.
Qed.

Lemma C1_witness :
  exists out,
    PipelineSpec.call Examples.toy_history Examples.toy_final
                      Examples.toy_decode (Examples.toy_request false)
    = Some out /\
    PipelineSpec.one_image_per_prompt (Examples.toy_request false) out.
Proof.
  destruct (C1_one_result_per_prompt Examples.toy_history Examples.toy_final
              Examples.toy_decode (Examples.toy_request false) eq_refl)
    as (out & Hcall & Hlen & _ & Hone).
  exists out. split; [exact Hcall|]. split; [exact Hlen | exact (Hone eq_refl)].
Defined.

(** C4: in every run of either notebook, every pipeline call with a list
    of prompts passes a list of negative prompts that is as long as the
    list of prompts, and in the inpainting notebook every pipeline call
    passes a list of prompts and, with it, an image batch and a mask batch
    whose leading dimension is the number of prompts; and the input
    preparation accepts every image and every mask: it builds both batches
    whatever their sizes, modes and pixels are. *)
Theorem C4_batch_lengths_match :
  (forall nb env,
      Flow.accepts (Flow.always (Flow.batches_ok (Flow.is_inpainting nb)))
                   (Nb.trace (cells nb) env)
      = true) /\
  (forall cp n original_image mask,
      exists start_image mask_image,
        Inpaint.start_image_of cp n original_image = Some start_image /\
        Inpaint.mask_image_of cp n mask = Some mask_image /\
        Np.leading start_image = Some n /\
        Np.leading mask_image = Some n).
Proof.
  split.
  - intros [p|p] env; simpl.
    + destruct (t2i_batches p) as (ss & H).
      apply (triple_accepts _ _ ss env H).
    + destruct (inpaint_batches p) as (ss & H).
      apply (triple_accepts _ _ ss env H).
  - intros cp n im mk.
    destruct (start_image_spec cp n im) as (s & Hs & Hsh & _).
    destruct (mask_image_spec cp n mk) as (m & Hm & Hmh & _).
    exists s, m. unfold Np.leading. rewrite Hsh, Hmh. auto.
Qed.

(** C5, at a list of three prompts: the text-to-image notebook asks for a
    grid of 2 rows and 3 // 2 = 1 column, two cells for the three images
    of every step. *)
Theorem C5_three_prompts_grid :
  TextToImage.grid_cols Examples.three_prompts = 1 /\
  Flow.grid_fits (Py.len (TextToImage.prompts Examples.three_prompts))
                 TextToImage.grid_rows
                 (TextToImage.grid_cols Examples.three_prompts) = false /\
  In (Nb.ECall "image_grid"
               [Nb.VSeq [Examples.generated 0; Examples.generated 1;
                         Examples.generated 2]]
               [("rows", Nb.VInt 2); ("cols", Nb.VInt 1)])
     (Nb.trace (TextToImage.notebook Examples.three_prompts) Examples.env_ok).
Proof.
  split; [reflexivity|]. split; [reflexivity|].
  vm_compute. tauto.
Qed.

(** C6: in every run of either notebook, when an external call raises (a
    file that cannot be opened, shapes the pipeline rejects, the accelerator
    out of memory, or any other failure of a library), that call is the last
    event of the run and the exception it raised is the result of the run,
    unchanged: nothing is retried, translated or substituted. *)
Theorem C6_failures_propagate (nb : Notebook) (env : Nb.Env)
        (tr0 rest : Nb.Trace) (ev : Nb.Event) (e : Nb.Exn) :
  Nb.trace (cells nb) env = tr0 ++ ev :: rest ->
  Flow.answer env tr0 ev = inl e ->
  rest = [] /\ Nb.result (cells nb) env = inl e.
Proof.
  intros Htr Hans.
  assert (Hp : Flow.propagates (cells nb))
    by (destruct nb; [apply t2i_propagates | apply inpaint_propagates]).
  destruct (Hp env []) as (evs & Hevs & H). simpl in Hevs.
  apply (H tr0 ev rest e); [|exact Hans].
  unfold Nb.trace, Nb.run in Htr. now rewrite Hevs in Htr.
Qed.

Lemma C6_witness :
  Nb.result (cells (InpaintNb Inpaint.shipped)) Examples.env_no_mask
  = inl Examples.file_not_found.
Proof.
  refine (proj2 (C6_failures_propagate
                   (InpaintNb Inpaint.shipped) Examples.env_no_mask
                   (removelast
                      (Nb.trace (cells (InpaintNb Inpaint.shipped))
                                Examples.env_no_mask))
                   []
                   (Nb.ECall "Image.open" [Nb.VStr "mask.png"] [])
                   Examples.file_not_found _ _)); reflexivity.
Defined.

(** C7: in every run of either notebook, every pipeline object is
    constructed with a model identifier, and every pipeline call passes only
    options from the recognized set. *)
Theorem C7_recognized_interface (nb : Notebook) (env : Nb.Env) :
  Flow.accepts (Flow.always Flow.interface_ok) (Nb.trace (cells nb) env) = true.
Proof.
  apply (accepts_both (Flow.always Flow.interface_ok));
    [apply t2i_interface | apply inpaint_interface].
Qed.

(** C8, as stated, fails on the text-to-image notebook: the first call's
    image is displayed as the value of its cell, before any grid or video
    is built. *)
Lemma C8_counterexample :
  ~ Flow.fixed_flow
      (Nb.trace (cells (TextToImageNb TextToImage.shipped)) Examples.env_ok).
Proof.
  intros (H1 & _ & _). vm_compute in H1. discriminate.
Qed.

(** C8, amended: in every run of either notebook the model is constructed
    before the seed is set and the seed is set before every pipeline call,
    so no pipeline call precedes the construction; and from a pipeline call
    up to the next one, no model is constructed, no seed is set, and no grid
    or video is built after a display. *)
Theorem C8_flow_per_call (nb : Notebook) (env : Nb.Env) :
  Flow.accepts (Flow.precedes Flow.is_construct Flow.is_seed)
               (Nb.trace (cells nb) env) = true /\
  Flow.accepts (Flow.precedes Flow.is_seed Flow.is_pipeline_call)
               (Nb.trace (cells nb) env) = true /\
  Flow.accepts (Flow.precedes Flow.is_construct Flow.is_pipeline_call)
               (Nb.trace (cells nb) env) = true /\
  Flow.accepts Flow.order_per_call (Nb.trace (cells nb) env) = true.
Proof.
  repeat split.
  - apply (accepts_both (Flow.precedes Flow.is_construct Flow.is_seed));
      [apply t2i_construct_before_seed | apply inpaint_construct_before_seed].
  - apply (accepts_both (Flow.precedes Flow.is_seed Flow.is_pipeline_call));
      [apply t2i_seed_before_call | apply inpaint_seed_before_call].
  - apply (accepts_both (Flow.precedes Flow.is_construct Flow.is_pipeline_call));
      [apply t2i_construct_before_call | apply inpaint_construct_before_call].
  - apply (accepts_both Flow.order_per_call);
      [apply t2i_order_per_call | apply inpaint_order_per_call].
Qed.

(** C10, as stated, fails when the two files differ in size: with a 2x1
    image and a 1x1 mask the batches have shapes (4, 1, 2, 3) and
    (4, 1, 1, 1), which share no height and width. *)
Lemma C10_counterexample :
  exists start_image mask_image tr',
    Inpaint.cell10 Inpaint.shipped Examples.env_ok []
    = (inr (start_image, mask_image), tr') /\
    ~ exists H W,
        Np.shape start_image = [Inpaint.num_images Inpaint.shipped; H; W; 3] /\
        Np.shape mask_image = [Inpaint.num_images Inpaint.shipped; H; W; 1].
Proof.
  do 3 eexists. split; [vm_compute; reflexivity|].
  intros (H & W & Hs & Hm). vm_compute in Hs, Hm.
  injection Hs as _ EW. injection Hm as _ EW'. congruence.
Qed.

(** C10, amended: when cell 10 returns, [start_image] has shape
    (num_images, H, W, 3) with H and W the height and width of the opened
    image, and each of its num_images elements is the RGB array of that
    image; [mask_image] has shape (num_images, H', W', 1) with H' and W' the
    height and width of the opened mask, and each of its elements is the
    single-channel array of the mask; num_images is the number of
    prompts. *)
Theorem C10_prepared_batches (p : Inpaint.Params) (env : Nb.Env)
        (tr tr' : Nb.Trace) (start_image mask_image : Np.ndarray) :
  Inpaint.cell10 p env tr = (inr (start_image, mask_image), tr') ->
  exists original_image mask,
    Nb.ext_call env tr
      (Nb.ECall "Image.open" [Nb.VStr (Inpaint.image_filename p)] [])
    = inr (Nb.VImage original_image) /\
    Nb.ext_call env
      (tr ++ [Nb.ECall "Image.open" [Nb.VStr (Inpaint.image_filename p)] []])
      (Nb.ECall "Image.open" [Nb.VStr (Inpaint.mask_filename p)] [])
    = inr (Nb.VImage mask) /\
    Np.shape start_image
    = [length (Inpaint.prompt p);
       PIL.height original_image; PIL.width original_image; 3] /\
    map (fun i => Np.index0 i start_image) (seq 0 (length (Inpaint.prompt p)))
    = repeat (Some (PIL.np_array
                      (PIL.convert (Nb.convert_pixel env) "RGB"
                                   original_image)))
             (length (Inpaint.prompt p)) /\
    Np.shape mask_image
    = [length (Inpaint.prompt p); PIL.height mask; PIL.width mask; 1] /\
    map (fun i => Np.index0 i mask_image) (seq 0 (length (Inpaint.prompt p)))
    = repeat (Inpaint.add_channel
                (PIL.np_array (PIL.convert (Nb.convert_pixel env) "L" mask)))
             (length (Inpaint.prompt p)).
Proof.
  intros H.
  destruct (cell10_returns p env tr tr' _ H)
    as (im & mk & Him & Hmk & Hs & Hm).
  exists im, mk. split; [exact Him|]. split; [exact Hmk|].
  destruct (start_image_spec (Nb.convert_pixel env) (Inpaint.num_images p) im)
    as (s & Hs' & Hsh & Hsc).
  destruct (mask_image_spec (Nb.convert_pixel env) (Inpaint.num_images p) mk)
    as (m & Hm' & Hmh & Hmc).
  simpl in Hs, Hm. rewrite Hs in Hs'. rewrite Hm in Hm'.
  injection Hs' as <-. injection Hm' as <-. auto.
Qed.

Lemma C10_witness :
  exists start_image mask_image,
    Np.shape start_image = [4; 1; 2; 3] /\
    Np.shape mask_image = [4; 1; 1; 1] /\
    Np.index0 3 start_image
    = Some (PIL.np_array (PIL.convert Examples.to_mode "RGB" Examples.picture)).
Proof.
  destruct (C10_prepared_batches
              Inpaint.shipped Examples.env_ok [] _ _ _ eq_refl)
    as (im & mk & Him & Hmk & Hs & Hsc & Hm & _).
  injection Him as <-. injection Hmk as <-.
  do 2 eexists. split; [exact Hs|]. split; [exact Hm|].
  exact (f_equal (fun l => nth 3 l None) Hsc).
Defined.

(* ===================================================================== *)
(** * Further properties of the cells *)
(* ===================================================================== *)

(** ** Loops of external calls *)

Section Loops.
Import Nb Flow.

(** A loop of calls that returns has made one call per element, in order,
    and collected one answer per element. *)
Lemma for_each_ext_returns {A} (mk : A -> Event) (xs : list A) :
  forall env tr ys tr',
    for_each (fun x => ext (mk x)) xs env tr = (inr ys, tr') ->
    tr' = tr ++ map mk xs /\ length ys = length xs.
Proof.
  induction xs as [|x xs IH]; intros env tr ys tr' H; simpl in H.
  - inversion H. now rewrite app_nil_r.
  - rewrite bind_run in H. unfold ext at 1 in H.
    destruct (ext_call env tr (mk x)) as [e|y]; [discriminate|].
    rewrite bind_run in H.
    destruct (for_each (fun x0 => ext (mk x0)) xs env (tr ++ [mk x]))
      as [[e|ys'] tr1] eqn:E; [discriminate|].
    destruct (IH env _ ys' tr1 E) as [-> Hlen].
    inversion H. subst. simpl. rewrite <- app_assoc. simpl. auto.
Qed.

(** Unpacking a list of lists iterates nothing but the lists. *)
Lemma for_each_iter_seqs (xss : list (list Value)) (env : Env) (tr : Trace) :
  for_each iter (map VSeq xss) env tr = (inr xss, tr).
Proof.
  induction xss as [|xs xss IH]; simpl; [reflexivity|].
  unfold bind. simpl. now rewrite IH.
Qed.

Lemma zip_star_seqs (xss : list (list Value)) (env : Env) (tr : Trace) :
  Nb.zip_star (VSeq (map VSeq xss)) env tr = (inr (Py.zip_star xss), tr).
Proof.
  unfold Nb.zip_star, bind. simpl. now rewrite for_each_iter_seqs.
Qed.

End Loops.

Section ZipLength.
Context {A : Type}.

Lemma fold_min_0 (l : list nat) : fold_right Nat.min 0 l = 0.
Proof. induction l as [|n l IH]; simpl; [|rewrite IH]; auto using Nat.min_0_r. Qed.

Lemma fold_min_le (f : nat) (l : list nat) : fold_right Nat.min f l <= f.
Proof. induction l as [|n l IH]; simpl; lia. Qed.

Lemma heads_none_min (xss : list (list A)) :
  Py.heads xss = None ->
  forall f, fold_right Nat.min f (map (@length A) xss) = 0.
Proof.
  induction xss as [|xs xss IH]; simpl; [discriminate|].
  destruct xs as [|x xs]; intros H f; [reflexivity|].
  destruct (Py.heads xss); [discriminate|]. simpl.
  now rewrite (IH eq_refl f).
Qed.

Lemma heads_some_min (xss : list (list A)) (hs : list A) :
  Py.heads xss = Some hs ->
  forall f, fold_right Nat.min (S f) (map (@length A) xss)
            = S (fold_right Nat.min f (map (@length A) (map (@tl A) xss))).
Proof.
  revert hs. induction xss as [|xs xss IH]; simpl; intros hs H f;
    [reflexivity|].
  destruct xs as [|x xs]; [discriminate|].
  destruct (Py.heads xss) as [hs'|]; [|discriminate].
  simpl. now rewrite (IH hs' eq_refl f).
Qed.

Lemma zip_rounds_min (f : nat) :
  forall xss : list (list A),
    length (Py.zip_rounds f xss)
    = fold_right Nat.min f (map (@length A) xss).
Proof.
  induction f as [|f IH]; intros xss; simpl.
  - now rewrite fold_min_0.
  - destruct (Py.heads xss) as [hs|] eqn:E.
    + simpl. now rewrite IH, (heads_some_min xss hs E f).
    + now rewrite (heads_none_min xss E).
Qed.

End ZipLength.

(** ** Cell 16 of the text-to-image notebook *)

(** X1: when cell 16 returns, it has unpacked the output of the pipeline
    without any external call and then asked for exactly one grid per tuple
    of [zip], in order, each of 2 rows and [len(prompt) // 2] columns; it
    returns one frame per tuple. *)
Theorem cell16_one_grid_per_step (p : TextToImage.Params) (images : Nb.Value)
        (env : Nb.Env) (tr tr' : Nb.Trace) (frames : list Nb.Value) :
  TextToImage.cell16 p images env tr = (inr frames, tr') ->
  exists steps,
    Nb.zip_star images env tr = (inr steps, tr) /\
    tr' = tr ++ map (fun imgs =>
                       Nb.ECall "image_grid" [Nb.VSeq imgs]
                                [("rows", Nb.vnat 2);
                                 ("cols",
                                  Nb.vnat (length (TextToImage.prompts p) / 2))])
                    steps /\
    length frames = length steps.
Proof.
  unfold TextToImage.cell16. rewrite bind_run.
  pose proof (silent_zip_star images env tr) as Hs.
  destruct (Nb.zip_star images env tr) as [[e|steps] tr1]; [discriminate|].
  simpl in Hs. subst tr1. intros H. exists steps. split; [reflexivity|].
  exact (for_each_ext_returns
           (fun imgs =>
              Nb.ECall "image_grid" [Nb.VSeq imgs]
                       [("rows", Nb.vnat 2);
                        ("cols", Nb.vnat (length (TextToImage.prompts p) / 2))])
           steps env tr frames tr' H).
Qed.

Lemma cell16_one_grid_per_step_witness :
  exists frames tr',
    TextToImage.cell16
      TextToImage.shipped
      (Nb.VSeq [Nb.VSeq [Examples.generated 0; Examples.generated 100];
                Nb.VSeq [Examples.generated 1; Examples.generated 101]])
      Examples.env_ok []
    = (inr frames, tr') /\
    length tr' = 2 /\ length frames = 2.
Proof.
  do 2 eexists. split; [reflexivity|].
  destruct (cell16_one_grid_per_step
              TextToImage.shipped
              (Nb.VSeq [Nb.VSeq [Examples.generated 0; Examples.generated 100];
                        Nb.VSeq [Examples.generated 1; Examples.generated 101]])
              Examples.env_ok [] _ _ eq_refl)
    as (steps & Hz & Htr & Hlen).
  injection Hz as <-. split; [reflexivity | exact Hlen].
Defined.

(** X2: on the histories of [n >= 1] prompts, all of [T] steps, the [zip]
    of cell 16 gives [T] tuples; tuple [t] has [n] images, the [j]-th of
    which is step [t] of prompt [j]. *)
Theorem zip_star_transposes (xss : list (list Nb.Value)) (T : nat)
        (env : Nb.Env) (tr : Nb.Trace) :
  xss <> [] ->
  Forall (fun xs => length xs = T) xss ->
  exists steps,
    Nb.zip_star (Nb.VSeq (map Nb.VSeq xss)) env tr = (inr steps, tr) /\
    length steps = T /\
    forall t, t < T ->
      exists row,
        nth_error steps t = Some row /\
        length row = length xss /\
        forall j xs, nth_error xss j = Some xs ->
                     nth_error row j = nth_error xs t.
Proof.
  intros Hne Hall. exists (Py.zip_star xss).
  split; [apply zip_star_seqs|].
  split; [now apply zip_star_length|].
  intros t Ht. now apply (zip_star_nth T).
Qed.

Lemma zip_star_transposes_witness :
  exists steps,
    Nb.zip_star
      (Nb.VSeq (map Nb.VSeq
                    [[Examples.generated 0; Examples.generated 100];
                     [Examples.generated 1; Examples.generated 101];
                     [Examples.generated 2; Examples.generated 102]]))
      Examples.env_ok []
    = (inr steps, []) /\
    length steps = 2.
Proof.
  destruct (zip_star_transposes
              [[Examples.generated 0; Examples.generated 100];
               [Examples.generated 1; Examples.generated 101];
               [Examples.generated 2; Examples.generated 102]]
              2 Examples.env_ok [])
    as (steps & Hz & Hlen & _).
  - discriminate.
  - repeat constructor.
  - exists steps. split; [exact Hz | exact Hlen].
Defined.

(** X3: [zip] stops at the shortest history: the number of tuples is the
    least of the lengths, so the later steps of longer histories are left
    out without an error; and an empty output gives no tuple. *)
Theorem zip_star_truncates (env : Nb.Env) (tr : Nb.Trace) :
  (forall xs xss,
      exists steps,
        Nb.zip_star (Nb.VSeq (map Nb.VSeq (xs :: xss))) env tr
        = (inr steps, tr) /\
        length steps
        = fold_right Nat.min (length xs) (map (@length Nb.Value) xss)) /\
  Nb.zip_star (Nb.VSeq []) env tr = (inr [], tr).
Proof.
  split; [|reflexivity].
  intros xs xss. exists (Py.zip_star (xs :: xss)).
  split; [apply zip_star_seqs|].
  unfold Py.zip_star. rewrite zip_rounds_min. simpl.
  apply Nat.min_r, fold_min_le.
Qed.

(** ** Grid layouts *)

(** X4: the grid of the inpainting notebook has a cell for every image and
    at most one cell to spare, for every number of prompts. *)
Theorem inpaint_grid_tight (p : Inpaint.Params) :
  Inpaint.num_images p <= Inpaint.grid_rows * Inpaint.grid_cols p
  /\ Inpaint.grid_rows * Inpaint.grid_cols p <= Inpaint.num_images p + 1.
Proof.
  unfold Inpaint.grid_rows, Inpaint.grid_cols, Py.ceil_half.
  pose proof (Nat.div_mod_eq (Inpaint.num_images p + 1) 2) as H.
  pose proof (Nat.mod_upper_bound (Inpaint.num_images p + 1) 2) as Hm.
  lia.
Qed.

(** X5: the grid of the text-to-image notebook has as many cells as there
    are prompts when their number is even, and one cell less when it is odd;
    it never has a cell to spare. *)
Theorem t2i_grid_cells (p : TextToImage.Params) :
  TextToImage.grid_rows * TextToImage.grid_cols p
  = length (TextToImage.prompts p) - length (TextToImage.prompts p) mod 2.
Proof.
  unfold TextToImage.grid_rows, TextToImage.grid_cols, Py.floordiv2, Py.len.
  pose proof (Nat.div_mod_eq (length (TextToImage.prompts p)) 2) as H.
  lia.
Qed.

(** ** Sizes of the prepared arrays *)

Section Sizes.
Import Inpaint.

Lemma length_concat_repeat (blk : list Z) (n : nat) :
  length (concat (repeat blk n)) = n * length blk.
Proof. induction n as [|n IH]; simpl; [|rewrite length_app, IH]; lia. Qed.

(** X6: the arrays cell 10 hands to the pipeline hold as many values as
    their shapes say: [n * H * W * 3] for the image batch and [n * H' * W']
    for the mask batch; appending the channel axis changes no value of the
    mask batch. *)
Theorem prepared_arrays_sizes (cp : string -> string -> list Z -> list Z)
        (n : nat) (original_image mask : PIL.Image) :
  exists start_image mask_image grey_batch,
    start_image_of cp n original_image = Some start_image /\
    batch n (PIL.np_array (PIL.convert cp "L" mask)) = Some grey_batch /\
    mask_image_of cp n mask = Some mask_image /\
    Np.well_formed start_image /\
    Np.well_formed mask_image /\
    length (Np.data start_image)
    = n * (PIL.height original_image * (PIL.width original_image * 3)) /\
    length (Np.data mask_image) = n * (PIL.height mask * PIL.width mask) /\
    Np.data mask_image = Np.data grey_batch.
Proof.
  set (rgb := PIL.np_array (PIL.convert cp "RGB" original_image)).
  set (grey := PIL.np_array (PIL.convert cp "L" mask)).
  assert (Hr : Np.well_formed rgb) by apply np_array_well_formed.
  assert (Hg : Np.well_formed grey) by apply np_array_well_formed.
  assert (Hrs : Np.size_of (Np.shape rgb)
                = PIL.height original_image * (PIL.width original_image * 3))
    by (simpl; lia).
  assert (Hgs : Np.size_of (Np.shape grey) = PIL.height mask * PIL.width mask)
    by (simpl; lia).
  destruct (batch_shape n rgb) as (s & Hs & Hsh & Hsd).
  destruct (batch_shape n grey) as (g & Hgb & Hgh & Hgd).
  rewrite firstn_all2 in Hsd by (rewrite Hr; lia).
  rewrite firstn_all2 in Hgd by (rewrite Hg; lia).
  exists s, {| Np.shape := Np.shape g ++ [1]; Np.data := Np.data g |}, g.
  unfold start_image_of, mask_image_of. fold rgb grey.
  rewrite Hs, Hgb, add_channel_shape.
  unfold Np.well_formed in *. cbn [Np.shape Np.data].
  rewrite size_of_app, Hsh, Hgh, Hsd, Hgd, !length_concat_repeat, Hr, Hg.
  cbn [Np.size_of fold_right]. fold (Np.size_of (Np.shape rgb)).
  fold (Np.size_of (Np.shape grey)). rewrite Hrs, Hgs.
  repeat split; lia.
Qed.

End Sizes.

(** ** What the notebooks never do, and how often they call *)

Ltac notebook_accepts :=
  intros; eapply triple_accepts; unfold_cells; triple_steps loop_same.

(** X8: whatever the libraries answer, the text-to-image notebook never
    opens an image file, and the inpainting notebook, which imports
    [pil_to_video], [Video] and [display], never calls them: it writes no
    video. *)
Theorem calls_never_made :
  (forall p env,
      Flow.accepts (Flow.never (Flow.fn_in ["Image.open"]))
                   (Nb.trace (TextToImage.notebook p) env) = true) /\
  (forall p env,
      Flow.accepts
        (Flow.never (Flow.fn_in ["pil_to_video"; "Video"; "display"]))
        (Nb.trace (Inpaint.notebook p) env) = true).
Proof. split; notebook_accepts. Qed.

(** X9: whatever the libraries answer, a run constructs at most one
    pipeline and seeds each of the two random number generators at most
    once; the text-to-image notebook calls the pipeline at most twice and
    the inpainting notebook at most once, after opening at most two files:
    no call is repeated after a failure. *)
Theorem calls_made_at_most :
  (forall nb env,
      Flow.accepts (Flow.at_most 1 Flow.is_construct)
                   (Nb.trace (cells nb) env) = true /\
      Flow.accepts (Flow.at_most 1 (Flow.fn_in ["torch.manual_seed"]))
                   (Nb.trace (cells nb) env) = true /\
      Flow.accepts (Flow.at_most 1 (Flow.fn_in ["np.random.seed"]))
                   (Nb.trace (cells nb) env) = true /\
      Flow.accepts (Flow.at_most 2 Flow.is_pipeline_call)
                   (Nb.trace (cells nb) env) = true) /\
  (forall p env,
      Flow.accepts (Flow.at_most 1 Flow.is_pipeline_call)
                   (Nb.trace (Inpaint.notebook p) env) = true /\
      Flow.accepts (Flow.at_most 2 (Flow.fn_in ["Image.open"]))
                   (Nb.trace (Inpaint.notebook p) env) = true).
Proof.
  split.
  - intros [p|p] env; simpl; repeat split; notebook_accepts.
  - intros p env. split; notebook_accepts.
Qed.

(** ** Cell 14 of the inpainting notebook and cell 8 of the text-to-image
    notebook *)

(** X10: when cell 14 returns, it has printed one caption per prompt, in
    the order of the prompts and numbered from 1, then asked for one grid
    of all images with 2 rows and the rounded-up half of the number of
    prompts as columns, and shown the value that this [image_grid] call
    returned. *)
Theorem cell14_captions_then_grid (p : Inpaint.Params) (images : Nb.Value)
        (env : Nb.Env) (tr tr' : Nb.Trace) :
  Inpaint.cell14 p images env tr = (inr tt, tr') ->
  exists prints grid,
    tr' = tr ++ prints
             ++ Nb.ECall "image_grid" [images]
                         [("rows", Nb.vnat 2);
                          ("cols",
                           Nb.vnat ((length (Inpaint.prompt p) + 1) / 2))]
                :: Flow.displayed grid /\
    Nb.ext_call env (tr ++ prints)
                (Nb.ECall "image_grid" [images]
                          [("rows", Nb.vnat 2);
                           ("cols",
                            Nb.vnat ((length (Inpaint.prompt p) + 1) / 2))])
    = inr grid /\
    length prints = length (Inpaint.prompt p) /\
    forall i q,
      nth_error (Inpaint.prompt p) i = Some q ->
      nth_error prints i
      = Some (Nb.ECall "print" [Nb.VStr (Inpaint.caption i q)] []).
Proof.
  unfold Inpaint.cell14. rewrite bind_run.
  destruct (Nb.for_each _ (Py.enumerate (Inpaint.prompt p)) env tr)
    as [[e|ys] tr1] eqn:E; [discriminate|].
  destruct (for_each_ext_returns
              (fun ip => Nb.ECall "print"
                           [Nb.VStr (Inpaint.caption (fst ip) (snd ip))] [])
              _ env tr ys tr1 E) as [-> _].
  rewrite bind_run. unfold Nb.call, Nb.ext at 1.
  destruct (Nb.ext_call env _ _) as [e|grid] eqn:Eg; [discriminate|].
  rewrite show_run. intros H. inversion H.
  exists (map (fun ip => Nb.ECall "print"
                           [Nb.VStr (Inpaint.caption (fst ip) (snd ip))] [])
              (Py.enumerate (Inpaint.prompt p))), grid.
  split; [rewrite <- !app_assoc; reflexivity|].
  split; [exact Eg|].
  split; [now rewrite length_map, enumerate_length|].
  intros i q Hq. now rewrite nth_error_map, (enumerate_nth _ _ _ Hq).
Qed.

Lemma cell14_captions_then_grid_witness :
  exists tr',
    Inpaint.cell14 Inpaint.shipped (Nb.VSeq []) Examples.env_ok []
    = (inr tt, tr') /\
    nth_error tr' 5 = Some (Nb.EDisplay (Nb.VObj "grid" 1)) /\
    length tr' = 6.
Proof.
  eexists. split; [reflexivity|].
  destruct (cell14_captions_then_grid
              Inpaint.shipped (Nb.VSeq []) Examples.env_ok [] _ eq_refl)
    as (prints & grid & Htr & Hg & Hlen & _).
  split; reflexivity.
Defined.

(** X11: cell 8 shows the first element of what the pipeline returned and
    nothing else of it; when the pipeline returns an empty list the cell
    raises [IndexError] right after the call and shows nothing. *)
Theorem cell8_shows_first (p : TextToImage.Params) (model : Nb.Value)
        (env : Nb.Env) (tr : Nb.Trace) (l : list Nb.Value) :
  Nb.ext_call env tr
    (Nb.ECall "__call__" [model] (TextToImage.cell8_kwargs p))
  = inr (Nb.VSeq l) ->
  TextToImage.cell8 p model env tr
  = match l with
    | [] =>
        (inl (Nb.mk_exn "IndexError" "index out of range"),
         tr ++ [Nb.ECall "__call__" [model] (TextToImage.cell8_kwargs p)])
    | first :: _ =>
        (inr tt,
         (tr ++ [Nb.ECall "__call__" [model] (TextToImage.cell8_kwargs p)])
         ++ Flow.displayed first)
    end.
Proof.
  intros H. unfold TextToImage.cell8. rewrite bind_run.
  unfold Nb.call, Nb.ext at 1. rewrite H.
  destruct l as [|first rest]; [reflexivity|].
  rewrite bind_run. simpl. apply show_run.
Qed.

Lemma cell8_shows_first_witness :
  TextToImage.cell8 TextToImage.shipped (Nb.VObj "model" 0)
                    Examples.env_empty_output []
  = (inl (Nb.mk_exn "IndexError" "index out of range"),
     [Nb.ECall "__call__" [Nb.VObj "model" 0]
               (TextToImage.cell8_kwargs TextToImage.shipped)]).
Proof.
  exact (cell8_shows_first TextToImage.shipped (Nb.VObj "model" 0)
                           Examples.env_empty_output [] [] eq_refl).
Defined.

(** The bounds of X9 are reached: the text-to-image notebook does call the
    pipeline twice. *)
Lemma second_pipeline_call_reached :
  Flow.accepts (Flow.at_most 1 Flow.is_pipeline_call)
               (Nb.trace (TextToImage.notebook TextToImage.shipped)
                         Examples.env_ok) = false.
Proof. reflexivity. Qed.

(** ** The order of the frames and the preview of cell 10 *)

Lemma for_each_ext_answers {A} (mk : A -> Nb.Event) (xs : list A) :
  forall env tr ys tr',
    Nb.for_each (fun x => Nb.ext (mk x)) xs env tr = (inr ys, tr') ->
    forall k x y,
      nth_error xs k = Some x ->
      nth_error ys k = Some y ->
      Nb.ext_call env (tr ++ map mk (firstn k xs)) (mk x) = inr y.
Proof.
  induction xs as [|x0 xs IH]; intros env tr ys tr' H k x y Hx Hy.
  - now destruct k.
  - simpl in H. rewrite bind_run in H. unfold Nb.ext at 1 in H.
    destruct (Nb.ext_call env tr (mk x0)) as [e|y0] eqn:E0; [discriminate|].
    rewrite bind_run in H.
    destruct (Nb.for_each (fun x1 => Nb.ext (mk x1)) xs env (tr ++ [mk x0]))
      as [[e|ys'] tr1] eqn:E; [discriminate|].
    inversion H; subst. destruct k as [|k]; simpl in *.
    + inversion Hx; inversion Hy; subst. now rewrite app_nil_r.
    + rewrite <- (IH env _ ys' _ E k x y Hx Hy).
      now rewrite <- app_assoc.
Qed.

(** X12: the frames cell 16 returns are in the order of the steps: frame
    [k] is the grid the library answered for the [k]-th tuple, after the
    grids of the tuples before it. *)
Theorem cell16_frames_in_order (p : TextToImage.Params) (images : Nb.Value)
        (env : Nb.Env) (tr tr' : Nb.Trace) (frames : list Nb.Value)
        (steps : list (list Nb.Value)) (k : nat) (imgs : list Nb.Value)
        (frame : Nb.Value) :
  TextToImage.cell16 p images env tr = (inr frames, tr') ->
  Nb.zip_star images env tr = (inr steps, tr) ->
  nth_error steps k = Some imgs ->
  nth_error frames k = Some frame ->
  Nb.ext_call
    env
    (tr ++ map (fun imgs =>
                  Nb.ECall "image_grid" [Nb.VSeq imgs]
                           [("rows", Nb.vnat 2);
                            ("cols",
                             Nb.vnat (length (TextToImage.prompts p) / 2))])
               (firstn k steps))
    (Nb.ECall "image_grid" [Nb.VSeq imgs]
              [("rows", Nb.vnat 2);
               ("cols", Nb.vnat (length (TextToImage.prompts p) / 2))])
  = inr frame.
Proof.
  unfold TextToImage.cell16. rewrite bind_run. intros H Hz. rewrite Hz in H.
  exact (for_each_ext_answers
           (fun imgs =>
              Nb.ECall "image_grid" [Nb.VSeq imgs]
                       [("rows", Nb.vnat 2);
                        ("cols", Nb.vnat (length (TextToImage.prompts p) / 2))])
           steps env tr frames tr' H k imgs frame).
Qed.

Lemma cell16_frames_in_order_witness :
  Nb.ext_call
    Examples.env_ok
    [Nb.ECall "image_grid"
              [Nb.VSeq [Examples.generated 0; Examples.generated 1]]
              [("rows", Nb.vnat 2); ("cols", Nb.vnat 2)]]
    (Nb.ECall "image_grid"
              [Nb.VSeq [Examples.generated 100; Examples.generated 101]]
              [("rows", Nb.vnat 2); ("cols", Nb.vnat 2)])
  = inr (Nb.VObj "grid" 1).
Proof.
  exact (cell16_frames_in_order
           TextToImage.shipped
           (Nb.VSeq [Nb.VSeq [Examples.generated 0; Examples.generated 100];
                     Nb.VSeq [Examples.generated 1; Examples.generated 101]])
           Examples.env_ok [] _ _ _ 1 _ _
           eq_refl eq_refl eq_refl eq_refl).
Defined.

(** X13: when cell 10 returns, its events are, in this order: [Image.open]
    of the image file, [Image.open] of the mask file, [convert] of the
    image that the first call returned to RGB, [convert] of the image that
    the second call returned to L, the print of the heading, and
    [image_grid] with 1 row and 2 columns on those two images as opened
    (not on the conversions); after them the value that this [image_grid]
    call returned is shown. *)
Theorem cell10_events (p : Inpaint.Params) (env : Nb.Env)
        (tr tr' : Nb.Trace) (arrays : Np.ndarray * Np.ndarray) :
  Inpaint.cell10 p env tr = (inr arrays, tr') ->
  exists original_image mask grid,
    Nb.ext_call env tr
      (Nb.ECall "Image.open" [Nb.VStr (Inpaint.image_filename p)] [])
    = inr (Nb.VImage original_image) /\
    Nb.ext_call env
      (tr ++ [Nb.ECall "Image.open" [Nb.VStr (Inpaint.image_filename p)] []])
      (Nb.ECall "Image.open" [Nb.VStr (Inpaint.mask_filename p)] [])
    = inr (Nb.VImage mask) /\
    Nb.ext_call env
      (tr ++ [Nb.ECall "Image.open" [Nb.VStr (Inpaint.image_filename p)] [];
              Nb.ECall "Image.open" [Nb.VStr (Inpaint.mask_filename p)] [];
              Nb.ECall "convert" [Nb.VImage original_image; Nb.VStr "RGB"] [];
              Nb.ECall "convert" [Nb.VImage mask; Nb.VStr "L"] [];
              Nb.ECall "print" [Nb.VStr "Original and mask image:"] []])
      (Nb.ECall "image_grid"
                [Nb.VSeq [Nb.VImage original_image; Nb.VImage mask]]
                [("rows", Nb.VInt 1); ("cols", Nb.VInt 2)])
    = inr grid /\
    tr' = tr
          ++ [Nb.ECall "Image.open" [Nb.VStr (Inpaint.image_filename p)] [];
              Nb.ECall "Image.open" [Nb.VStr (Inpaint.mask_filename p)] [];
              Nb.ECall "convert" [Nb.VImage original_image; Nb.VStr "RGB"] [];
              Nb.ECall "convert" [Nb.VImage mask; Nb.VStr "L"] [];
              Nb.ECall "print" [Nb.VStr "Original and mask image:"] [];
              Nb.ECall "image_grid"
                       [Nb.VSeq [Nb.VImage original_image; Nb.VImage mask]]
                       [("rows", Nb.VInt 1); ("cols", Nb.VInt 2)]]
          ++ Flow.displayed grid.
Proof.
  intros H.
  destruct (cell10_run p env tr tr' arrays H)
    as (im & mk & grid & H1 & H2 & _ & _ & Hg & Htr).
  exists im, mk, grid. cbn zeta in Hg, Htr.
  split; [exact H1|]. split; [exact H2|]. split.
  - rewrite <- Hg. f_equal. now rewrite <- !app_assoc.
  - rewrite Htr. unfold Nb.convert_event. now rewrite <- !app_assoc.
Qed.

Lemma cell10_events_witness :
  exists tr',
    snd (Inpaint.cell10 Inpaint.shipped Examples.env_ok []) = tr' /\
    nth_error tr' 6 = Some (Nb.EDisplay (Nb.VObj "grid" 1)) /\
    length tr' = 7.
Proof.
  destruct (cell10_events Inpaint.shipped Examples.env_ok [] _ _ eq_refl)
    as (im & mk & grid & H1 & H2 & Hg & Htr).
  injection H1 as <-. injection H2 as <-. injection Hg as <-.
  eexists. split; [reflexivity|]. split; reflexivity.
Defined.
